(** * LCD policy finder: discovery, classification, merge and sampling

    A shallow embedding of the discovery scripts
    (Step2_Find_allPolicy_URLs.py, Step2_Find_allPolicy_URLs_Simple.py,
    Step2_Quick_LCD_Finder.py), of the manual list
    (Step2_Manual_LCD_List.py) and of the bulk downloader
    (Step3_Download_Allpolicies.py).

    Python strings are modelled as [string] (characters are bytes, so the
    regular-expression class [\d] is the ASCII digits), Python integers as
    [Z], the [processed_ids] / [seen_ids] sets as [gset string], and the
    browser as an oracle whose observations are passed in explicitly.  An
    awaited browser call either returns or raises; [outcome] records
    which. *)

From Stdlib Require Import ZArith String Ascii List Bool Lia Sorted Permutation.
From Stdlib Require Import DecimalString DecimalPos.
From stdpp Require Import base gmap strings list.

Import ListNotations.
Local Open Scope string_scope.
Local Open Scope Z_scope.

(** ** Python string primitives *)

Module Py.

(** [x in s] for strings: [x] occurs in [s] as a contiguous substring. *)
Fixpoint contains (x s : string) : bool :=
  String.prefix x s ||
  match s with
  | EmptyString => false
  | String _ s' => contains x s'
  end.

Definition startswith (s x : string) : bool := String.prefix x s.

Definition is_digit (c : ascii) : bool :=
  let n := nat_of_ascii c in (48 <=? n)%nat && (n <=? 57)%nat.

(** [str.isspace] on the ASCII range: space, \t \n \v \f \r and the four
    separators 0x1c-0x1f. *)
Definition is_space (c : ascii) : bool :=
  let n := nat_of_ascii c in
  (n =? 32)%nat || ((9 <=? n)%nat && (n <=? 13)%nat)
  || ((28 <=? n)%nat && (n <=? 31)%nat).

Fixpoint lstrip (s : string) : string :=
  match s with
  | EmptyString => EmptyString
  | String c s' => if is_space c then lstrip s' else s
  end.

Fixpoint rstrip (s : string) : string :=
  match s with
  | EmptyString => EmptyString
  | String c s' =>
      match rstrip s' with
      | EmptyString => if is_space c then EmptyString else String c EmptyString
      | r => String c r
      end
  end.

(** [s.strip()] *)
Definition strip (s : string) : string := rstrip (lstrip s).

Fixpoint skip (n : nat) (s : string) : string :=
  match n, s with
  | O, _ => s
  | S _, EmptyString => EmptyString
  | S k, String _ s' => skip k s'
  end.

(** [s.replace(old, new)] for a non-empty [old]: every non-overlapping
    occurrence, leftmost first.  [pending] counts the characters of an
    occurrence already replaced that still have to be passed over. *)
Fixpoint replace_from (pending : nat) (old new s : string) : string :=
  match s with
  | EmptyString => EmptyString
  | String c s' =>
      match pending with
      | S k => replace_from k old new s'
      | O =>
          if String.prefix old s
          then new ++ replace_from (String.length old - 1) old new s'
          else String c (replace_from 0 old new s')
      end
  end.

Definition replace (s old new : string) : string := replace_from 0 old new s.

(** The longest run of digits at the head of [s]: the greedy [\d*]. *)
Fixpoint digits_prefix (s : string) : string :=
  match s with
  | EmptyString => EmptyString
  | String c s' => if is_digit c then String c (digits_prefix s') else EmptyString
  end.

(** One attempt of the pattern [lit(glit\d+)] at the head of [s]; the
    result is the captured group. *)
Definition match_here (lit glit s : string) : option string :=
  if String.prefix (lit ++ glit) s then
    match digits_prefix (skip (String.length (lit ++ glit)) s) with
    | EmptyString => None
    | ds => Some (glit ++ ds)
    end
  else None.

(** [re.search(r'lit(glit\d+)', s)] followed by [.group(1)]: the leftmost
    position where the pattern matches.  The three patterns of the
    program are [LCDId=(\d+)], [DocID=(L\d+)] and [(L\d+)]. *)
Fixpoint re_search (lit glit s : string) : option string :=
  match match_here lit glit s with
  | Some g => Some g
  | None =>
      match s with
      | EmptyString => None
      | String _ s' => re_search lit glit s'
      end
  end.

(** [str(n)] for an integer. *)
Definition str (n : Z) : string := NilZero.string_of_int (Z.to_int n).

Definition digit_value (c : ascii) : Z := Z.of_nat (nat_of_ascii c) - 48.

(** The digit part of an integer literal accepted by [int]: digits, with
    single underscores allowed between two digits. *)
Fixpoint digits_value (acc : Z) (after_digit : bool) (s : string) : option Z :=
  match s with
  | EmptyString => if after_digit then Some acc else None
  | String c s' =>
      if is_digit c then digits_value (10 * acc + digit_value c) true s'
      else if Ascii.eqb c "_" && after_digit then
             match s' with
             | EmptyString => None
             | _ => digits_value acc false s'
             end
      else None
  end.

(** [int(s)]: surrounding whitespace is ignored, one sign is allowed;
    [None] stands for the [ValueError]. *)
Definition int (s : string) : option Z :=
  match strip s with
  | EmptyString => None
  | String c r =>
      if Ascii.eqb c "+" then digits_value 0 false r
      else if Ascii.eqb c "-" then option_map Z.opp (digits_value 0 false r)
      else digits_value 0 false (String c r)
  end.

(** [range(start, stop, step)] for a positive [step]. *)
Definition range (start stop step : Z) : list Z :=
  map (fun k => start + Z.of_nat k * step)
      (seq 0 (Z.to_nat ((stop - start + step - 1) / step))).

(** [l.sort(key=...)] with integer keys.  All keys are computed first, so
    a key that raises leaves no result ([None]).  The sort is stable, so
    its result is determined by the keys and the input order: each element
    goes in front of the first element of the sorted rest whose key is not
    smaller. *)
Fixpoint keyed {A : Type} (key : A -> option Z) (l : list A) : option (list (Z * A)) :=
  match l with
  | [] => Some []
  | x :: l' =>
      match key x with
      | None => None
      | Some k => option_map (cons (k, x)) (keyed key l')
      end
  end.

Fixpoint insert_keyed {A : Type} (kx : Z * A) (l : list (Z * A)) : list (Z * A) :=
  match l with
  | [] => [kx]
  | ky :: l' => if fst kx <=? fst ky then kx :: l else ky :: insert_keyed kx l'
  end.

Fixpoint sort_keyed {A : Type} (l : list (Z * A)) : list (Z * A) :=
  match l with
  | [] => []
  | kx :: l' => insert_keyed kx (sort_keyed l')
  end.

Definition sort_by_key {A : Type} (key : A -> option Z) (l : list A) : option (list A) :=
  option_map (fun kl => map snd (sort_keyed kl)) (keyed key l).

(** [l[:n]] *)
Definition slice_to {A : Type} (n : Z) (l : list A) : list A :=
  if 0 <=? n then firstn (Z.to_nat n) l
  else firstn (List.length l - Z.to_nat (- n)) l.

End Py.

(** ** Records and browser observations *)

(** An awaited call either returns a value or raises. *)
Inductive outcome (A : Type) : Type :=
| Returns (a : A)
| Raises.
Arguments Returns {A} a.
Arguments Raises {A}.

(** The [policy_info] dictionary.  [status] is the optional key written by
    the manual list and read by the bulk downloader. *)
Record policy : Type := {
  lcd_id : string;
  doc_id : string;
  title : string;
  url : string;
  found_date : string;
  status : option string
}.

(** The sort key of the three scripts: [lambda x: int(x['lcd_id'])]. *)
Definition id_number (p : policy) : option Z := Py.int (lcd_id p).

(** The dictionary written to All_urls.json. *)
Record catalog : Type := {
  search_date : string;
  total_policies : nat;
  source : string;
  search_method : option string;
  policies : list policy
}.

(** The heading element looked up on a policy page: its text, no such
    element, or an exception while looking. *)
Inductive heading : Type :=
| HeadingText (s : string)
| NoHeading
| HeadingRaises.

(** What one navigation to a policy page shows: [goto] is the outcome of
    [page.goto], [clock] the reading of [datetime.now().isoformat()]. *)
Record page_view : Type := {
  goto : outcome unit;
  content : outcome string;
  page_title : outcome string;
  title_element : heading;
  clock : string
}.

(** The finder objects: [self.lcd_urls] and [self.processed_ids]. *)
Record finder : Type := {
  lcd_urls : list policy;
  processed_ids : gset string
}.

(** A finder together with the log of the identifiers navigated to. *)
Record run : Type := {
  state : finder;
  fetched : list Z
}.

Definition new_finder : finder := {| lcd_urls := []; processed_ids := ∅ |}.
Definition new_run : run := {| state := new_finder; fetched := [] |}.

(** [self.lcd_urls.append(p); self.processed_ids.add(id)] *)
Definition append_policy (p : policy) (id : string) (s : finder) : finder :=
  {| lcd_urls := lcd_urls s ++ [p];
     processed_ids := processed_ids s ∪ {[ id ]} |}.

Definition view_url (lcd_id : Z) : string :=
  "https://www.cms.gov/medicare-coverage-database/view/lcd.aspx?LCDId=" ++ Py.str lcd_id.

(** The n-th navigation of a run, to the page of an identifier. *)
Definition browser : Type := nat -> Z -> page_view.

(** ** Step2_Find_allPolicy_URLs_Simple.py: [SimpleLCDFinder] *)

Module Simple.

Definition known_working_ids : list Z := [33822; 35000; 35070; 33803; 33393; 38617].

Definition search_ranges : list (Z * Z * Z) :=
  [ (33000, 34000, 50); (35000, 36000, 50); (37000, 39000, 100);
    (30000, 33000, 100); (25000, 30000, 200) ].

(** The test of lines 43-44.  In Python [and] binds tighter than [or]:
    the body marker alone is enough, the title tests guard only the title
    marker. *)
Definition looks_valid (content title : string) : bool :=
  Py.contains "Local Coverage Determination" content
  || (Py.contains "LCD" title
      && negb (Py.contains "Error" title)
      && negb (Py.contains "Not Found" title)).

(** The inner [try] that extracts the policy title. *)
Definition policy_title (v : page_view) (title : string) (lcd_id : Z) : string :=
  match title_element v with
  | HeadingText h => h
  | NoHeading => Py.strip (Py.replace title " - CMS" "")
  | HeadingRaises => "LCD Policy L" ++ Py.str lcd_id
  end.

(** [validate_lcd_url(page, lcd_id)] on what the navigation shows; [None]
    is Python's [None].  The handling of the "I Accept" button sits in a
    [try] of its own whose exceptions are dropped and has no part in the
    result. *)
Definition validate_lcd_url (v : page_view) (lcd_id : Z) : option policy :=
  match goto v with
  | Raises => None
  | Returns _ =>
      match content v with
      | Raises => None
      | Returns c =>
          match page_title v with
          | Raises => None
          | Returns t =>
              if looks_valid c t then
                Some {| lcd_id := Py.str lcd_id;
                        doc_id := match Py.re_search "" "L" c with
                                  | Some d => d
                                  | None => "L" ++ Py.str lcd_id
                                  end;
                        title := Py.strip (policy_title v t lcd_id);
                        url := view_url lcd_id;
                        found_date := clock v;
                        status := None |}
              else None
          end
      end
  end.

Section Scan.

Variable web : browser.

(** [await self.validate_lcd_url(page, lcd_id)], logged. *)
Definition visit (r : run) (lcd_id : Z) : option policy * run :=
  (validate_lcd_url (web (List.length (fetched r)) lcd_id) lcd_id,
   {| state := state r; fetched := fetched r ++ [lcd_id] |}).

(** Body of the loop over [known_working_ids] (lines 90-95): the page is
    validated first, membership is tested afterwards. *)
Definition validate_known (r : run) (lcd_id : Z) : run :=
  let '(found, r') := visit r lcd_id in
  match found with
  | Some p =>
      if decide (Py.str lcd_id ∈ processed_ids (state r')) then r'
      else {| state := append_policy p (Py.str lcd_id) (state r');
              fetched := fetched r' |}
  | None => r'
  end.

(** Body of the loops over a range (lines 114-123 and 134-140): membership
    is tested before the page is validated.  The second component is
    [range_found]. *)
Definition probe (acc : run * nat) (lcd_id : Z) : run * nat :=
  let '(r, range_found) := acc in
  if decide (Py.str lcd_id ∈ processed_ids (state r)) then (r, range_found)
  else
    let '(found, r') := visit r lcd_id in
    match found with
    | Some p =>
        ({| state := append_policy p (Py.str lcd_id) (state r');
            fetched := fetched r' |}, S range_found)
    | None => (r', range_found)
    end.

Definition scan_ids (r : run) (ids : list Z) : run * nat :=
  fold_left probe ids (r, O).

(** One entry of [search_ranges]: the coarse pass, then the dense pass
    with step 10 when more than five policies were found. *)
Definition search_range (r : run) (rng : Z * Z * Z) : run :=
  let '(start, stop, step) := rng in
  let '(r1, range_found) := scan_ids r (Py.range start stop step) in
  if (5 <? range_found)%nat then fst (scan_ids r1 (Py.range start stop 10))
  else r1.

Definition find_lcd_policies_systematically (r : run) : run :=
  fold_left search_range search_ranges
            (fold_left validate_known known_working_ids r).

End Scan.

(** [save_to_json]: sort [self.lcd_urls] in place and build the output
    dictionary; [now] is the clock reading. *)
Definition save_to_json (now : string) (s : finder) : option catalog :=
  match Py.sort_by_key id_number (lcd_urls s) with
  | None => None
  | Some sorted =>
      Some {| search_date := now;
              total_policies := List.length sorted;
              source := "CMS Medicare Coverage Database";
              search_method := Some "Systematic ID validation";
              policies := sorted |}
  end.

End Simple.

(** ** Step2_Quick_LCD_Finder.py *)

Module Quick.

Definition test_ids : list Z :=
  [ 33822; 35000; 35070; 33803; 33393; 38617;
    33000; 33100; 33200; 33300; 33400; 33500; 33600; 33700; 33800; 33900;
    34000; 34100; 34200; 34300; 34400; 34500; 34600; 34700; 34800; 34900;
    35100; 35200; 35300; 35400; 35500; 35600; 35700; 35800; 35900;
    36000; 36100; 36200; 36300; 36400; 36500; 36600; 36700; 36800; 36900;
    37000; 37100; 37200; 37300; 37400; 37500; 37600; 37700; 37800; 37900;
    38000; 38100; 38200; 38300; 38400; 38500; 38600; 38700; 38800; 38900;
    39000; 39100; 39200; 39300; 39400; 39500; 39600; 39700; 39800; 39900 ].

(** The test of lines 60-63: only the title is looked at. *)
Definition looks_valid (title : string) : bool :=
  Py.contains "LCD" title
  && negb (Py.contains "Error" title)
  && negb (Py.contains "Not Found" title)
  && negb (Py.contains "Search" title).

Definition policy_title (v : page_view) (title : string) (lcd_id : Z) : string :=
  match title_element v with
  | HeadingText h => h
  | NoHeading => Py.strip (Py.replace title " - CMS" "")
  | HeadingRaises => "LCD Policy L" ++ Py.str lcd_id
  end.

(** The body of the [try] of one identifier (lines 42-89): the record
    appended, if any.  Any exception is dropped by [except: pass]. *)
Definition probe (v : page_view) (lcd_id : Z) : option policy :=
  match goto v with
  | Raises => None
  | Returns _ =>
      match page_title v with
      | Raises => None
      | Returns t =>
          if looks_valid t then
            Some {| lcd_id := Py.str lcd_id;
                    doc_id := "L" ++ Py.str lcd_id;
                    title := Py.strip (policy_title v t lcd_id);
                    url := view_url lcd_id;
                    found_date := clock v;
                    status := None |}
          else None
      end
  end.

(** The loop [for i, lcd_id in enumerate(ids)] from index [i], with
    [lcd_policies] the list built so far. *)
Fixpoint scan (web : browser) (i : nat) (ids : list Z) (lcd_policies : list policy)
  : list policy :=
  match ids with
  | [] => lcd_policies
  | lcd_id :: rest =>
      scan web (S i) rest
           match probe (web i lcd_id) lcd_id with
           | Some p => lcd_policies ++ [p]
           | None => lcd_policies
           end
  end.

Definition quick_find_lcd_policies (web : browser) : list policy :=
  scan web 0 test_ids [].

(** The number of identifiers of [ids] whose navigation raises, counting
    from index [i]: what an error counter would hold. *)
Fixpoint failed_fetches (web : browser) (i : nat) (ids : list Z) : nat :=
  match ids with
  | [] => O
  | lcd_id :: rest =>
      match goto (web i lcd_id) with
      | Raises => S (failed_fetches web (S i) rest)
      | Returns _ => failed_fetches web (S i) rest
      end
  end.

(** [save_lcd_policies(policies)] *)
Definition save_lcd_policies (now : string) (l : list policy) : option catalog :=
  match Py.sort_by_key id_number l with
  | None => None
  | Some sorted =>
      Some {| search_date := now;
              total_policies := List.length sorted;
              source := "CMS Medicare Coverage Database";
              search_method := Some "Quick ID sampling";
              policies := sorted |}
  end.

End Quick.

(** ** Step2_Find_allPolicy_URLs.py: [LCDPolicyFinder] *)

Module Finder.

(** One anchor element: [get_attribute('href')] (which may be [None]),
    [inner_text()] and the clock reading when it is handled. *)
Record link : Type := {
  href : option string;
  inner_text : string;
  seen_at : string
}.

(** [page.query_selector_all(selector)]: the call may raise, and so may
    the reading of each element. *)
Definition query : Type := outcome (list (outcome link)).

(** A page holding links: the wait for it to settle and the answer to
    each selector. *)
Record listing : Type := {
  settle : outcome unit;
  query_selector_all : string -> query
}.

Definition lcd_link_selectors : list string :=
  [ "a[href*='lcd.aspx']"; "a[href*='LCDId=']"; "a[href*='DocID=L']"; "a:has-text('L')" ].

Definition result_selectors : list string :=
  [ "a[href*='lcd.aspx?LCDId=']"; "table a[href*='LCDId=']";
    ".searchResults a[href*='lcd.aspx']"; "tr a[href*='LCDId=']" ].

Definition full_url (h : string) : string :=
  if Py.startswith h "http" then h else "https://www.cms.gov" ++ h.

Definition link_policy (l : link) (h lcd doc : string) : policy :=
  {| lcd_id := lcd;
     doc_id := doc;
     title := match inner_text l with
              | EmptyString => "LCD Policy " ++ doc
              | t => Py.strip t
              end;
     url := full_url h;
     found_date := seen_at l;
     status := None |}.

Definition is_lcd_href (h : string) : bool :=
  Py.contains "lcd.aspx" h && Py.contains "LCDId=" h.

(** Lines 101-123: one link in [extract_lcd_links]; both the identifier
    and the document code must be in the address. *)
Definition add_link (s : finder) (l : link) : finder :=
  match href l with
  | None => s
  | Some h =>
      if is_lcd_href h then
        match Py.re_search "LCDId=" "" h, Py.re_search "DocID=" "L" h with
        | Some lcd, Some doc =>
            if decide (lcd ∈ processed_ids s) then s
            else append_policy (link_policy l h lcd doc) lcd s
        | _, _ => s
        end
      else s
  end.

(** Lines 164-185: one link in [extract_all_lcd_results]; the document
    code comes from the address, else from the text, else is derived. *)
Definition add_result (s : finder) (l : link) : finder :=
  match href l with
  | None => s
  | Some h =>
      if is_lcd_href h then
        match Py.re_search "LCDId=" "" h with
        | Some lcd =>
            let doc :=
              match Py.re_search "DocID=" "L" h with
              | Some d => d
              | None =>
                  match Py.re_search "" "L" (inner_text l) with
                  | Some d => d
                  | None => "L" ++ lcd
                  end
              end in
            if decide (lcd ∈ processed_ids s) then s
            else append_policy (link_policy l h lcd doc) lcd s
        | None => s
        end
      else s
  end.

(** The loop over the links of one selector; an exception ends it and
    keeps what was added ([except: continue]). *)
Fixpoint harvest (add : finder -> link -> finder) (links : list (outcome link))
  (s : finder) : finder :=
  match links with
  | [] => s
  | Raises :: _ => s
  | Returns l :: rest => harvest add rest (add s l)
  end.

Definition harvest_query (add : finder -> link -> finder) (q : query) (s : finder)
  : finder :=
  match q with
  | Raises => s
  | Returns links => harvest add links s
  end.

Definition harvest_selectors (add : finder -> link -> finder) (pg : listing)
  (selectors : list string) (s : finder) : finder :=
  fold_left (fun s sel => harvest_query add (query_selector_all pg sel) s) selectors s.

(** [extract_lcd_links(page)] *)
Definition extract_lcd_links (pg : listing) (s : finder) : finder :=
  match settle pg with
  | Raises => s
  | Returns _ => harvest_selectors add_link pg lcd_link_selectors s
  end.

(** A page of search results: the listing, and the next-page link, which
    is looked up (and may be absent) and, when found, clicked and waited
    for. *)
Record results_page : Type := {
  results : listing;
  next_link : outcome (option (outcome unit))
}.

(** The line printed for each page handled: its number, [new_count] and
    whether a next-page link was found. *)
Record page_report : Type := {
  page_no : Z;
  new_count : nat;
  next_found : bool
}.

Definition max_pages : Z := 50.

(** The [while page_num <= max_pages] loop of [extract_all_lcd_results];
    [pages n] is what page number [n] shows, [fuel] bounds the number of
    times the loop condition is evaluated and [None] means it ran out.
    The result carries the reports of the pages handled, in order. *)
Fixpoint paginate (pages : Z -> results_page) (fuel : nat) (page_num : Z)
  (s : finder) (log : list page_report) : option (finder * list page_report) :=
  match fuel with
  | O => None
  | S fuel' =>
      if page_num <=? max_pages then
        let pg := pages page_num in
        match settle (results pg) with
        | Raises => Some (s, log)
        | Returns _ =>
            let initial_count := List.length (lcd_urls s) in
            let s' := harvest_selectors add_result (results pg) result_selectors s in
            let new := (List.length (lcd_urls s') - initial_count)%nat in
            let report found :=
              (log ++ [{| page_no := page_num; new_count := new;
                          next_found := found |}])%list in
            match next_link pg with
            | Raises => Some (s', report false)
            | Returns None => Some (s', report false)
            | Returns (Some click) =>
                if (0 <? new)%nat then
                  match click with
                  | Returns _ => paginate pages fuel' (page_num + 1) s' (report true)
                  | Raises => Some (s', report true)
                  end
                else Some (s', report true)
            end
        end
      else Some (s, log)
  end.

Definition extract_all_lcd_results (pages : Z -> results_page) (fuel : nat)
  (s : finder) : option (finder * list page_report) :=
  paginate pages fuel 1 s [].

(** One identifier of [try_known_lcd_patterns] (lines 299-332); the
    second component is [found_count].  The [break] at ten finds is the
    same as doing nothing for every later identifier, since
    [found_count] no longer changes. *)
Definition try_pattern (web : browser) (acc : run * nat) (lcd_id : Z) : run * nat :=
  let '(r, found_count) := acc in
  if (10 <=? found_count)%nat then acc
  else
    let v := web (List.length (fetched r)) lcd_id in
    let r' := {| state := state r; fetched := fetched r ++ [lcd_id] |} in
    match goto v with
    | Raises => (r', found_count)
    | Returns _ =>
        match page_title v with
        | Raises => (r', found_count)
        | Returns t =>
            if Py.contains "LCD" t && negb (Py.contains "Error" t) then
              match content v with
              | Raises => (r', found_count)
              | Returns c =>
                  if Py.contains "Local Coverage Determination" c then
                    if decide (Py.str lcd_id ∈ processed_ids (state r')) then (r', found_count)
                    else
                      ({| state :=
                            append_policy
                              {| lcd_id := Py.str lcd_id;
                                 doc_id := "L" ++ Py.str lcd_id;
                                 title := t;
                                 url := view_url lcd_id;
                                 found_date := clock v;
                                 status := None |}
                              (Py.str lcd_id) (state r');
                          fetched := fetched r' |}, S found_count)
                  else (r', found_count)
              end
            else (r', found_count)
        end
    end.

Definition test_lcd_ids : list Z := Py.range 30000 40000 100.

Definition try_known_lcd_patterns (web : browser) (r : run) : run :=
  fst (fold_left (try_pattern web) test_lcd_ids (r, O)).

Definition report_urls : list string :=
  [ "https://www.cms.gov/medicare-coverage-database/reports/finallcdalphabeticalreport.aspx";
    "https://www.cms.gov/medicare-coverage-database/reports/finallcdcontractorreport.aspx";
    "https://www.cms.gov/medicare-coverage-database/reports/finallcdstatereport.aspx" ].

(** [search_via_reports]: each report page is opened (which may raise)
    and its links extracted. *)
Definition search_via_reports (open : string -> outcome listing) (s : finder) : finder :=
  fold_left (fun s u => match open u with
                        | Raises => s
                        | Returns pg => extract_lcd_links pg s
                        end) report_urls s.

(** What [search_via_keyword] meets: the search page is opened, the text
    input and the submit button are looked up (each may be absent), the
    term is filled in and the form submitted. *)
Record keyword_visit : Type := {
  opened : outcome unit;
  search_input : outcome (option (outcome unit));
  search_button : outcome (option (outcome unit));
  hits : listing
}.

Definition search_via_keyword (k : keyword_visit) (s : finder) : finder :=
  match opened k, search_input k, search_button k with
  | Returns _, Returns (Some (Returns _)), Returns (Some (Returns _)) =>
      extract_lcd_links (hits k) s
  | _, _, _ => s
  end.

(** [comprehensive_search]: the three strategies in order. *)
Definition comprehensive_search (open : string -> outcome listing)
  (k : keyword_visit) (web : browser) (r : run) : run :=
  try_known_lcd_patterns web
    {| state := search_via_keyword k (search_via_reports open (state r));
       fetched := fetched r |}.

(** The loop of lines 372-375 of [save_to_json]. *)
Fixpoint unique_loop (l : list policy) (unique_lcds : list policy)
  (seen_ids : gset string) : list policy :=
  match l with
  | [] => unique_lcds
  | lcd :: l' =>
      if decide (lcd_id lcd ∈ seen_ids) then unique_loop l' unique_lcds seen_ids
      else unique_loop l' (unique_lcds ++ [lcd]) (seen_ids ∪ {[ lcd_id lcd ]})
  end.

(** [save_to_json]: the dictionary written; the value returned is its
    [total_policies]. *)
Definition save_to_json (now : string) (l : list policy) : option catalog :=
  match Py.sort_by_key id_number (unique_loop l [] ∅) with
  | None => None
  | Some sorted =>
      Some {| search_date := now;
              total_policies := List.length sorted;
              source := "CMS Medicare Coverage Database";
              search_method := None;
              policies := sorted |}
  end.

(** [search_lcd_policies(page, search_term, page_num)]: the search page is
    opened (lines 33-34), which may raise.  The "I Accept" button, the LCD
    checkbox, the search input and the submit button each sit in a [try]
    of their own whose exceptions are dropped; whatever they did, the
    links are extracted from the page then shown. *)
Definition search_lcd_policies (opened : outcome listing) (s : finder) : finder :=
  match opened with
  | Raises => s
  | Returns pg => extract_lcd_links pg s
  end.

Definition direct_urls : list string :=
  [ "https://www.cms.gov/medicare-coverage-database/search.aspx?DocType=LCD";
    "https://www.cms.gov/medicare-coverage-database/indexes/lcd-index.html" ].

(** [try_direct_lcd_listings]: each listing page is opened (which may
    raise) and its links extracted. *)
Definition try_direct_lcd_listings (open : string -> outcome listing) (s : finder) : finder :=
  fold_left (fun s u => match open u with
                        | Raises => s
                        | Returns pg => extract_lcd_links pg s
                        end) direct_urls s.

End Finder.

(** ** Step3_Download_Allpolicies.py: [BulkLCDDownloader] *)

Module Bulk.

(** What opening and parsing All_urls.json gives. *)
Inductive all_urls_json : Type :=
| Missing
| Malformed
| Loaded (policies : list policy).

(** [p.get('status') == 'estimated'] *)
Definition is_estimated (p : policy) : bool :=
  match status p with
  | Some s => String.eqb s "estimated"
  | None => false
  end.

(** Lines 42-49. *)
Definition sample (sample_size : Z) (policies : list policy) : list policy :=
  let validated_policies := List.filter (fun p => negb (is_estimated p)) policies in
  let estimated_policies := List.filter is_estimated policies in
  let sample_policies := Py.slice_to sample_size validated_policies in
  if Z.of_nat (List.length sample_policies) <? sample_size then
    let remaining := sample_size - Z.of_nat (List.length sample_policies) in
    (sample_policies ++ Py.slice_to remaining estimated_policies)%list
  else sample_policies.

(** [load_policy_urls] *)
Definition load_policy_urls (sample_only : bool) (sample_size : Z)
  (file : all_urls_json) : list policy :=
  match file with
  | Loaded policies => if sample_only then sample sample_size policies else policies
  | Missing | Malformed => []
  end.

(** [self.downloaded_count], [self.failed_count] and
    [self.failed_policies]; a failed policy is kept with its ['error']
    text. *)
Record downloader : Type := {
  downloaded_count : nat;
  failed_count : nat;
  failed_policies : list (policy * string)
}.

(** [BulkLCDDownloader.__init__] *)
Definition new_downloader : downloader :=
  {| downloaded_count := O; failed_count := O; failed_policies := [] |}.

(** A downloader at work: its counters, the files of the output
    directory, which only the downloader writes to, and the addresses it
    navigated to. *)
Record session : Type := {
  counters : downloader;
  disk : gset string;
  visited : list string
}.

Definition new_session (files : gset string) : session :=
  {| counters := new_downloader; disk := files; visited := [] |}.

(** What one download meets: [arrive] is the navigation to the policy
    page with the waits that follow it, [pdf] the call of [page.pdf],
    [written] whether the file is there once that call is over,
    [message] the text of the exception raised, if any, and [pause] the
    wait between two downloads.  The "I Accept" button sits in a [try] of
    its own whose exceptions are dropped. *)
Record download_view : Type := {
  arrive : outcome unit;
  pdf : outcome unit;
  written : bool;
  message : string;
  pause : outcome unit
}.

(** [f"{self.output_dir}/Policy_{lcd_id}.pdf"] *)
Definition pdf_filename (p : policy) : string :=
  "Download_PDFs/Policy_" ++ lcd_id p ++ ".pdf".

(** [self.failed_count += 1; self.failed_policies.append({**policy, 'error': error})] *)
Definition record_failure (p : policy) (error : string) (d : downloader) : downloader :=
  {| downloaded_count := downloaded_count d;
     failed_count := S (failed_count d);
     failed_policies := (failed_policies d ++ [(p, error)])%list |}.

(** [download_policy_pdf(page, policy)] for a policy with all four keys:
    the value returned and the session it leaves. *)
Definition download_policy_pdf (v : download_view) (p : policy) (s : session)
  : bool * session :=
  if decide (pdf_filename p ∈ disk s) then (true, s)
  else
    let visited' := (visited s ++ [url p])%list in
    match arrive v with
    | Raises =>
        (false, {| counters := record_failure p (message v) (counters s);
                   disk := disk s; visited := visited' |})
    | Returns _ =>
        let disk' := if written v then disk s ∪ {[ pdf_filename p ]} else disk s in
        match pdf v with
        | Raises =>
            (false, {| counters := record_failure p (message v) (counters s);
                       disk := disk'; visited := visited' |})
        | Returns _ =>
            if written v then
              (true, {| counters :=
                          {| downloaded_count := S (downloaded_count (counters s));
                             failed_count := failed_count (counters s);
                             failed_policies := failed_policies (counters s) |};
                        disk := disk'; visited := visited' |})
            else
              (false, {| counters := record_failure p "PDF not created" (counters s);
                         disk := disk'; visited := visited' |})
        end
    end.

(** The loop of lines 162-167 from index [i]: the value returned by each
    download is dropped; an exception of the wait between two downloads
    ends the loop. *)
Fixpoint download_loop (web : nat -> download_view) (i : nat) (policies : list policy)
  (s : session) : session :=
  match policies with
  | [] => s
  | p :: rest =>
      let s' := snd (download_policy_pdf (web i) p s) in
      match pause (web i) with
      | Raises => s'
      | Returns _ => download_loop web (S i) rest s'
      end
  end.

(** [download_all_policies]: with nothing loaded it returns before the
    browser is started; otherwise the browser is taken to start. *)
Definition download_all_policies (sample_only : bool) (sample_size : Z)
  (file : all_urls_json) (web : nat -> download_view) (s : session) : session :=
  match load_policy_urls sample_only sample_size file with
  | [] => s
  | policies => download_loop web 0 policies s
  end.

End Bulk.

(** ** Step2_Manual_LCD_List.py *)

Module Manual.

(** A policy of the manual list: besides the keys of [policy] it has a
    ['category'], which no other script reads. *)
Record entry : Type := {
  info : policy;
  category : string
}.

(** The dictionaries of a list get their ['found_date'] one after the
    other: the k-th one holds the k-th reading of the clock. *)
Fixpoint stamp {A : Type} (clock : nat -> string) (k : nat) (l : list (string -> A))
  : list A :=
  match l with
  | [] => []
  | f :: l' => f (clock k) :: stamp clock (S k) l'
  end.

Definition known (lcd doc t u cat now : string) : entry :=
  {| info := {| lcd_id := lcd; doc_id := doc; title := t; url := u;
                found_date := now; status := None |};
     category := cat |}.

Definition known_policies : list (string -> entry) :=
  [ known "33822" "L33822" "Glucose Monitors"
      "https://www.cms.gov/medicare-coverage-database/view/lcd.aspx?LCDId=33822&DocID=L33822"
      "Medical Equipment";
    known "35000" "L35000" "Molecular Pathology Procedures"
      "https://www.cms.gov/medicare-coverage-database/view/lcd.aspx?LCDId=35000"
      "Laboratory";
    known "35070" "L35070"
      "Speech-Language Pathology (SLP) Services: Communication Disorders"
      "https://www.cms.gov/medicare-coverage-database/view/lcd.aspx?lcdid=35070"
      "Therapy Services";
    known "33803" "L33803" "Urological Supplies"
      "https://www.cms.gov/medicare-coverage-database/view/lcd.aspx?LCDId=33803"
      "Medical Supplies";
    known "33393" "L33393" "Hospice - Determining Terminal Status"
      "https://www.cms.gov/medicare-coverage-database/view/lcd.aspx?LCDId=33393"
      "Hospice Care";
    known "38617" "L38617" "Implantable Continuous Glucose Monitors (I-CGM)"
      "https://www.cms.gov/medicare-coverage-database/view/lcd.aspx?lcdId=38617"
      "Medical Equipment" ].

(** [create_lcd_policy_list] *)
Definition create_lcd_policy_list (clock : nat -> string) : list entry :=
  stamp clock 0 known_policies.

Definition lcd_categories : list (string * list Z) :=
  [ ("Medical Equipment", [33800; 33801; 33804; 33805; 33810; 33815; 33820; 33825; 33830]);
    ("Laboratory Services", [35001; 35002; 35005; 35010; 35015; 35020; 35025; 35030]);
    ("Diagnostic Imaging", [34000; 34010; 34020; 34030; 34040; 34050; 34060; 34070]);
    ("Surgical Procedures", [36000; 36010; 36020; 36030; 36040; 36050; 36060; 36070]);
    ("Therapy Services", [35071; 35072; 35075; 35080; 35085; 35090; 35095]);
    ("Home Health", [37000; 37010; 37020; 37030; 37040; 37050; 37060; 37070]);
    ("Durable Medical Equipment", [38000; 38010; 38020; 38030; 38040; 38050; 38060]);
    ("Prosthetics", [39000; 39010; 39020; 39030; 39040; 39050; 39060; 39070]) ].

(** The dictionary of lines 84-92. *)
Definition estimated (category : string) (lcd_id : Z) (now : string) : entry :=
  {| info := {| lcd_id := Py.str lcd_id;
                doc_id := "L" ++ Py.str lcd_id;
                title := "LCD Policy L" ++ Py.str lcd_id ++ " - " ++ category;
                url := view_url lcd_id;
                found_date := now;
                status := Some "estimated" |};
     category := category |}.

(** The two nested loops of lines 82-93 over a table of categories. *)
Definition estimate_all (clock : nat -> string) (table : list (string * list Z))
  : list entry :=
  stamp clock 0
        (flat_map (fun '(category, lcd_ids) => map (estimated category) lcd_ids) table).

(** [add_additional_lcd_patterns] *)
Definition add_additional_lcd_patterns (clock : nat -> string) : list entry :=
  estimate_all clock lcd_categories.

(** The dictionary written by [save_comprehensive_lcd_list]. *)
Record output_data : Type := {
  search_date : string;
  total_policies : nat;
  validated_policies : nat;
  estimated_policies : nat;
  source : string;
  search_method : string;
  note : string;
  policies : list entry
}.

(** [save_comprehensive_lcd_list]: the clock is read for each known
    policy, then for each estimated one, then for the ['search_date']. *)
Definition save_comprehensive_lcd_list (clock : nat -> string) : output_data :=
  let known_policies := create_lcd_policy_list clock in
  let additional_policies :=
    add_additional_lcd_patterns (fun k => clock (List.length known_policies + k)%nat) in
  let all_policies := (known_policies ++ additional_policies)%list in
  {| search_date := clock (List.length all_policies);
     total_policies := List.length all_policies;
     validated_policies := List.length known_policies;
     estimated_policies := List.length additional_policies;
     source := "CMS Medicare Coverage Database";
     search_method := "Manual compilation + pattern estimation";
     note := "Validated policies are confirmed working. Estimated policies follow common patterns but may need validation.";
     policies := all_policies |}.

(** What the bulk downloader loads from the file written: of each policy
    it reads the keys of [policy] only. *)
Definition written_file (o : output_data) : Bulk.all_urls_json :=
  Bulk.Loaded (map info (policies o)).

End Manual.

(** ** Properties stated about the programs *)

(** The identifiers of the records of a finder are pairwise distinct and
    all of them are in its set of processed identifiers. *)
Definition consistent (s : finder) : Prop :=
  NoDup (map lcd_id (lcd_urls s))
  /\ forall p, p ∈ lcd_urls s -> lcd_id p ∈ processed_ids s.

(** Every adjacent pair of [l] has integer identifiers related by [rel]. *)
Definition adjacent (rel : Z -> Z -> Prop) (l : list policy) : Prop :=
  forall (i : nat) (p q : policy),
    l !! i = Some p -> l !! S i = Some q ->
    exists a b, id_number p = Some a /\ id_number q = Some b /\ rel a b.

(** The identifiers of the records of a finder read as integers. *)
Definition numeric (s : finder) : Prop :=
  Forall (fun p => is_Some (id_number p)) (lcd_urls s).

(** The identifiers of the records of a finder are the strings of
    integers, as [str] writes them. *)
Definition canonical (s : finder) : Prop :=
  Forall (fun p => exists n, lcd_id p = Py.str n) (lcd_urls s).

(** [p] is the first record of [l] with its identifier. *)
Definition first_with_id (l : list policy) (p : policy) : Prop :=
  exists l1 l2, l = (l1 ++ p :: l2)%list /\ lcd_id p ∉ map lcd_id l1.

(** The merge in the words of the specification: going through [l] in
    order, a record is kept when its identifier has not been seen. *)
Fixpoint first_seen (seen : gset string) (l : list policy) : list policy :=
  match l with
  | [] => []
  | p :: l' =>
      if decide (lcd_id p ∈ seen) then first_seen seen l'
      else p :: first_seen (seen ∪ {[ lcd_id p ]}) l'
  end.

(** The number of records the merge drops: what a duplicate counter
    would hold. *)
Fixpoint dropped (seen : gset string) (l : list policy) : nat :=
  match l with
  | [] => O
  | p :: l' =>
      if decide (lcd_id p ∈ seen) then S (dropped seen l')
      else dropped (seen ∪ {[ lcd_id p ]}) l'
  end.

(** [r'] continues [r] without touching what [r] had processed: the
    identifiers fetched and the records added since [r] were not in the
    [processed_ids] of [r], which only grew. *)
Definition skips_processed (r r' : run) : Prop :=
  exists new added,
    fetched r' = (fetched r ++ new)%list /\
    lcd_urls (state r') = (lcd_urls (state r) ++ added)%list /\
    processed_ids (state r) ⊆ processed_ids (state r') /\
    (forall i, i ∈ new -> Py.str i ∉ processed_ids (state r)) /\
    (forall p, p ∈ added -> lcd_id p ∉ processed_ids (state r)).

(** A page after which the pagination goes on: it gave new identifiers
    and a next-page link was found. *)
Definition continuing (r : Finder.page_report) : Prop :=
  (0 < Finder.new_count r)%nat /\ Finder.next_found r = true.

(** The order of keyed elements. *)
Definition key_le {A : Type} (a b : Z * A) : Prop := fst a <= fst b.
Definition key_lt {A : Type} (a b : Z * A) : Prop := fst a < fst b.

(** Sample records and pages used in the examples. *)
Definition record_of (id doc t : string) : policy :=
  {| lcd_id := id; doc_id := doc; title := t;
     url := "https://www.cms.gov/medicare-coverage-database/view/lcd.aspx?LCDId=" ++ id;
     found_date := "2025-01-01T00:00:00"; status := None |}.

Definition page_of (t c : string) : page_view :=
  {| goto := Returns tt; content := Returns c; page_title := Returns t;
     title_element := NoHeading; clock := "2025-01-01T00:00:00" |}.

Definition unreachable : page_view :=
  {| goto := Raises; content := Raises; page_title := Raises;
     title_element := HeadingRaises; clock := "2025-01-01T00:00:00" |}.

(** The scenario of the specification: identifier 33822 found by the
    seeded validation and again by the range probe, 35000 by the probe. *)
Definition seeded_33822 : policy := record_of "33822" "L33822" "Glucose Monitors".
Definition probed_33822 : policy := record_of "33822" "L33822" "LCD Policy L33822".
Definition probed_35000 : policy := record_of "35000" "L35000" "LCD Policy L35000".

(** A run in which identifier 30000 has already been found, and a site
    on which every page is a valid policy page. *)
Definition found_30000 : run :=
  {| state := {| lcd_urls := [record_of (Py.str 30000) "L30000" "Found by a report"];
                 processed_ids := {[ Py.str 30000 ]} |};
     fetched := [] |}.

Definition all_valid : browser :=
  fun _ _ => page_of "LCD - CMS" "Local Coverage Determination".

Definition all_down : browser := fun _ _ => unreachable.

Definition all_search_pages : browser := fun _ _ => page_of "Search" "".

(** A site on which only the page of identifier 35000 cannot be reached. *)
Definition down_35000 : browser :=
  fun _ id => if id =? 35000 then unreachable
              else page_of "LCD - CMS" "Local Coverage Determination".

(** A policy of the manual list marked as estimated. *)
Definition estimated_33800 : policy :=
  {| lcd_id := "33800"; doc_id := "L33800";
     title := "LCD Policy L33800 - Medical Equipment";
     url := "https://www.cms.gov/medicare-coverage-database/view/lcd.aspx?LCDId=33800";
     found_date := "2025-01-01T00:00:00"; status := Some "estimated" |}.

(** A report page with two links to the same policy, one of them with a
    zero-padded identifier. *)
Definition padded_links : list (outcome Finder.link) :=
  [ Returns {| Finder.href := Some "/view/lcd.aspx?LCDId=33822&DocID=L33822";
               Finder.inner_text := "Glucose Monitors";
               Finder.seen_at := "2025-01-01T00:00:00" |};
    Returns {| Finder.href := Some "/view/lcd.aspx?LCDId=033822&DocID=L33822";
               Finder.inner_text := "Glucose Monitors";
               Finder.seen_at := "2025-01-01T00:00:01" |} ].

Definition padded_listing : Finder.listing :=
  {| Finder.settle := Returns tt;
     Finder.query_selector_all := fun _ => Returns padded_links |}.

(** [s'] continues [s]: its records are those of [s] followed by new
    ones, and its processed identifiers include those of [s]. *)
Definition extends (s s' : finder) : Prop :=
  lcd_urls s `prefix_of` lcd_urls s' /\ processed_ids s ⊆ processed_ids s'.

(** The identifier of [p] reads as the integer [k]. *)
Definition has_number (k : Z) (p : policy) : bool :=
  match id_number p with
  | Some a => a =? k
  | None => false
  end.

(** The number of candidates of one entry of [search_ranges]: those of
    the coarse pass and those of the dense pass. *)
Definition range_budget (rng : Z * Z * Z) : nat :=
  let '(start, stop, step) := rng in
  (List.length (Py.range start stop step) + List.length (Py.range start stop 10))%nat.

(** The files the policies of a list are written to. *)
Definition targets (l : list policy) : gset string :=
  list_to_set (map Bulk.pdf_filename l).

(** A clock, a site and a download used in the examples. *)
Definition noon : nat -> string := fun _ => "2025-01-01T12:00:00".

Definition smooth : Bulk.download_view :=
  {| Bulk.arrive := Returns tt; Bulk.pdf := Returns tt; Bulk.written := true;
     Bulk.message := ""; Bulk.pause := Returns tt |}.

(** * Proofs *)

(** ** String primitives *)

Lemma re_search_group lit glit s g :
  Py.re_search lit glit s = Some g ->
  exists t, Py.digits_prefix t <> EmptyString /\ g = glit ++ Py.digits_prefix t.
Proof.
  induction s as [|c s IH]; simpl; unfold Py.match_here.
  - destruct (String.prefix (lit ++ glit) EmptyString); [|discriminate].
    destruct (Py.digits_prefix _) eqn:E; [discriminate|].
    intros [= <-]. eexists. rewrite E. split; [discriminate | reflexivity].
  - destruct (String.prefix (lit ++ glit) (String c s)).
    + destruct (Py.digits_prefix _) eqn:E; [exact IH|].
      intros [= <-]. eexists. rewrite E. split; [discriminate | reflexivity].
    + exact IH.
Qed.

Lemma re_search_code_nonempty lit s g :
  Py.re_search lit "L" s = Some g -> g <> EmptyString.
Proof.
  intros H. apply re_search_group in H as (t & _ & ->). discriminate.
Qed.

(** A run of digits reads as an integer. *)

Lemma digit_not_space (c : ascii) : Py.is_digit c = true -> Py.is_space c = false.
Proof.
  unfold Py.is_digit, Py.is_space. intros [H1 H2]%andb_true_iff.
  apply Nat.leb_le in H1, H2.
  repeat (apply orb_false_iff; split);
    [apply Nat.eqb_neq; lia | | ]; apply andb_false_iff.
  - right. apply Nat.leb_gt. lia.
  - right. apply Nat.leb_gt. lia.
Qed.

Lemma digit_not_sign (c : ascii) :
  Py.is_digit c = true -> Ascii.eqb c "+" = false /\ Ascii.eqb c "-" = false.
Proof.
  intros H. split; apply Ascii.eqb_neq; intros ->; vm_compute in H; discriminate.
Qed.

Lemma digits_prefix_value (t : string) :
  forall (acc : Z) (b : bool),
    b = true \/ Py.digits_prefix t <> EmptyString ->
    is_Some (Py.digits_value acc b (Py.digits_prefix t)).
Proof.
  induction t as [|c t IH]; intros acc b Hb; simpl in *.
  - destruct Hb as [-> | Hb]; [eexists; reflexivity | contradiction].
  - destruct (Py.is_digit c) eqn:Hc; simpl.
    + rewrite Hc. apply IH. left. reflexivity.
    + destruct Hb as [-> | Hb]; [eexists; reflexivity | contradiction].
Qed.

Lemma rstrip_digits (t : string) :
  Py.rstrip (Py.digits_prefix t) = Py.digits_prefix t.
Proof.
  induction t as [|c t IH]; simpl; [reflexivity|].
  destruct (Py.is_digit c) eqn:Hc; simpl; [|reflexivity].
  rewrite IH, (digit_not_space c Hc). destruct (Py.digits_prefix t); reflexivity.
Qed.

Lemma int_digits (t : string) :
  Py.digits_prefix t <> EmptyString -> is_Some (Py.int (Py.digits_prefix t)).
Proof.
  intros Hne. pose proof (digits_prefix_value t 0 false (or_intror Hne)) as Hv.
  pose proof (rstrip_digits t) as Hr. unfold Py.int, Py.strip.
  destruct t as [|c t]; simpl in *; [contradiction|].
  destruct (Py.is_digit c) eqn:Hc; [|contradiction].
  simpl. rewrite (digit_not_space c Hc), Hr.
  destruct (digit_not_sign c Hc) as [-> ->]. exact Hv.
Qed.

Lemma re_search_number lit s g :
  Py.re_search lit "" s = Some g -> is_Some (Py.int g).
Proof.
  intros (t & Hne & ->)%re_search_group. apply int_digits, Hne.
Qed.

(** [int(str(n)) == n]: the decimal string of an integer reads back as
    the integer. *)

Lemma digits_value_acc (d : Decimal.uint) :
  forall acc : positive,
    Py.digits_value (Z.pos acc) true (NilEmpty.string_of_uint d)
    = Some (Z.pos (Pos.of_uint_acc d acc)).
Proof.
  induction d as [|d IH|d IH|d IH|d IH|d IH|d IH|d IH|d IH|d IH|d IH];
    intros acc; [reflexivity|..];
    cbn [NilEmpty.string_of_uint Py.digits_value Pos.of_uint_acc];
    change (Py.is_digit _) with true; cbv iota;
    rewrite <- IH; f_equal;
    match goal with
    | |- context [Py.digit_value ?c] =>
        let v := eval vm_compute in (Py.digit_value c) in
        change (Py.digit_value c) with v
    end; lia.
Qed.

Lemma digits_value_uint (d : Decimal.uint) :
  forall b : bool,
    d <> Decimal.Nil \/ b = true ->
    Py.digits_value 0 b (NilEmpty.string_of_uint d) = Some (Z.of_N (Pos.of_uint d)).
Proof.
  induction d as [|d IH|d IH|d IH|d IH|d IH|d IH|d IH|d IH|d IH|d IH];
    intros b Hb.
  - destruct Hb as [Hb | ->]; [contradiction | reflexivity].
  - cbn [NilEmpty.string_of_uint Py.digits_value Pos.of_uint].
    change (Py.is_digit _) with true; cbv iota.
    apply (IH true). right. reflexivity.
  - exact (digits_value_acc d 1).
  - exact (digits_value_acc d 2).
  - exact (digits_value_acc d 3).
  - exact (digits_value_acc d 4).
  - exact (digits_value_acc d 5).
  - exact (digits_value_acc d 6).
  - exact (digits_value_acc d 7).
  - exact (digits_value_acc d 8).
  - exact (digits_value_acc d 9).
Qed.

Lemma rstrip_uint (d : Decimal.uint) :
  Py.rstrip (NilEmpty.string_of_uint d) = NilEmpty.string_of_uint d.
Proof.
  induction d as [|d IH|d IH|d IH|d IH|d IH|d IH|d IH|d IH|d IH|d IH];
    [reflexivity|..];
    cbn [NilEmpty.string_of_uint Py.rstrip]; rewrite IH;
    destruct (NilEmpty.string_of_uint d); reflexivity.
Qed.

Lemma int_uint (d : Decimal.uint) :
  d <> Decimal.Nil ->
  Py.int (NilEmpty.string_of_uint d) = Some (Z.of_N (Pos.of_uint d)) /\
  Py.int (String "-" (NilEmpty.string_of_uint d)) = Some (- Z.of_N (Pos.of_uint d)).
Proof.
  intros Hd. pose proof (digits_value_uint d false (or_introl Hd)) as Hv.
  pose proof (rstrip_uint d) as Hr. split.
  - unfold Py.int, Py.strip.
    destruct d; [contradiction|..];
      cbn [NilEmpty.string_of_uint Py.lstrip] in *;
      change (Py.is_space _) with false; cbv iota; rewrite Hr; exact Hv.
  - unfold Py.int, Py.strip. cbn [Py.lstrip].
    change (Py.is_space "-") with false. cbv iota. cbn [Py.rstrip]. rewrite Hr.
    destruct d; [contradiction|..];
      cbn [NilEmpty.string_of_uint] in *; rewrite Hv; reflexivity.
Qed.

Lemma int_str (n : Z) : Py.int (Py.str n) = Some n.
Proof.
  unfold Py.str. destruct n as [|p|p]; [reflexivity|..];
    cbn [Z.to_int NilZero.string_of_int];
    pose proof (DecimalPos.Unsigned.to_uint_nonnil p) as Hnil;
    destruct (int_uint (Pos.to_uint p) Hnil) as [Hpos Hneg];
    rewrite DecimalPos.Unsigned.of_to in Hpos, Hneg;
    unfold NilZero.string_of_uint;
    destruct (Pos.to_uint p); try contradiction; assumption.
Qed.

(** ** The classifier *)

(** C1, as stated, fails: a page whose title holds the marker "LCD" and
    whose body holds the negative signal "Error" is accepted by both
    classifiers, which never look for negative signals in the body. *)
Lemma negative_in_body_is_accepted :
  Py.contains "LCD" "LCD" = true /\
  Py.contains "Error" "Error" = true /\
  Simple.validate_lcd_url (page_of "LCD" "Error") 33822
    = Some (record_of "33822" "L33822" "LCD") /\
  Quick.probe (page_of "LCD" "Error") 33822
    = Some (record_of "33822" "L33822" "LCD").
Proof. repeat split; vm_compute; reflexivity. Qed.

(** C1, amended: a negative signal ("Error" or "Not Found") in the page
    title takes precedence over the title marker "LCD": the quick finder
    produces no record, and [validate_lcd_url] produces none whenever the
    body lacks "Local Coverage Determination". *)
Theorem title_negative_precedence (v : page_view) (n : Z) (t : string) :
  page_title v = Returns t ->
  Py.contains "Error" t = true \/ Py.contains "Not Found" t = true ->
  Quick.probe v n = None /\
  (Simple.validate_lcd_url v n = None \/
   exists c, content v = Returns c /\
             Py.contains "Local Coverage Determination" c = true).
Proof.
  intros Ht Hneg. split.
  - unfold Quick.probe, Quick.looks_valid. rewrite Ht.
    destruct (goto v); [|reflexivity].
    destruct Hneg as [-> | ->]; rewrite ?andb_false_r; reflexivity.
  - unfold Simple.validate_lcd_url, Simple.looks_valid. rewrite Ht.
    destruct (goto v); [|left; reflexivity].
    destruct (content v) as [c|]; [|left; reflexivity].
    destruct (Py.contains "Local Coverage Determination" c) eqn:Hbody.
    + right. exists c. split; [reflexivity | exact Hbody].
    + left. destruct Hneg as [-> | ->]; rewrite ?andb_false_r; reflexivity.
Qed.

Lemma title_negative_precedence_witness :
  Quick.probe (page_of "LCD Error" "") 33822 = None /\
  (Simple.validate_lcd_url (page_of "LCD Error" "") 33822 = None \/
   exists c, content (page_of "LCD Error" "") = Returns c /\
             Py.contains "Local Coverage Determination" c = true).
Proof.
  apply (title_negative_precedence (page_of "LCD Error" "") 33822 "LCD Error").
  - reflexivity.
  - left. vm_compute. reflexivity.
Defined.

(** C4: a record produced from content with no extractable document code
    has [doc_id] equal to "L" followed by its [lcd_id], and no record has
    an empty [doc_id]: in [validate_lcd_url], in the quick finder, in the
    result links of [extract_all_lcd_results] and in the links of
    [extract_lcd_links]. *)
Theorem derived_code_fallback (v : page_view) (n : Z) (s : finder) (l : Finder.link) :
  (forall p, Simple.validate_lcd_url v n = Some p ->
     doc_id p <> EmptyString /\
     (forall c, content v = Returns c -> Py.re_search "" "L" c = None ->
                doc_id p = "L" ++ lcd_id p)) /\
  (forall p, Quick.probe v n = Some p -> doc_id p = "L" ++ lcd_id p) /\
  (lcd_urls (Finder.add_result s l) = lcd_urls s \/
   exists p, lcd_urls (Finder.add_result s l) = (lcd_urls s ++ [p])%list /\
     doc_id p <> EmptyString /\
     (forall h, Finder.href l = Some h ->
        Py.re_search "DocID=" "L" h = None ->
        Py.re_search "" "L" (Finder.inner_text l) = None ->
        doc_id p = "L" ++ lcd_id p)) /\
  (lcd_urls (Finder.add_link s l) = lcd_urls s \/
   exists p, lcd_urls (Finder.add_link s l) = (lcd_urls s ++ [p])%list /\
     doc_id p <> EmptyString).
Proof.
  refine (conj _ (conj _ (conj _ _))); [split| | |].
  - revert H. unfold Simple.validate_lcd_url.
    destruct (goto v); [|discriminate].
    destruct (content v) as [c|]; [|discriminate].
    destruct (page_title v) as [t|]; [|discriminate].
    destruct (Simple.looks_valid c t); [|discriminate].
    intros [= <-]; simpl.
    destruct (Py.re_search "" "L" c) eqn:E; [|discriminate].
    eapply re_search_code_nonempty; eassumption.
  - intros c Hc Hnone. revert H. unfold Simple.validate_lcd_url. rewrite Hc.
    destruct (goto v); [|discriminate].
    destruct (page_title v) as [t|]; [|discriminate].
    destruct (Simple.looks_valid c t); [|discriminate].
    intros [= <-]; simpl. rewrite Hnone. reflexivity.
  - intros p. unfold Quick.probe.
    destruct (goto v); [|discriminate].
    destruct (page_title v) as [t|]; [|discriminate].
    destruct (Quick.looks_valid t); [|discriminate].
    intros [= <-]; reflexivity.
  - unfold Finder.add_result.
    destruct (Finder.href l) as [h|]; [|left; reflexivity].
    destruct (Finder.is_lcd_href h); [|left; reflexivity].
    destruct (Py.re_search "LCDId=" "" h) as [lcd|]; [|left; reflexivity].
    destruct (decide (lcd ∈ processed_ids s)); [left; reflexivity|].
    right. eexists. split; [reflexivity|]. simpl. split.
    + destruct (Py.re_search "DocID=" "L" h) eqn:E1.
      { eapply re_search_code_nonempty; eassumption. }
      destruct (Py.re_search "" "L" (Finder.inner_text l)) eqn:E2.
      { eapply re_search_code_nonempty; eassumption. }
      discriminate.
    + intros h' [= <-] -> ->. reflexivity.
  - unfold Finder.add_link.
    destruct (Finder.href l) as [h|]; [|left; reflexivity].
    destruct (Finder.is_lcd_href h); [|left; reflexivity].
    destruct (Py.re_search "LCDId=" "" h) as [lcd|]; [|left; reflexivity].
    destruct (Py.re_search "DocID=" "L" h) as [doc|] eqn:E; [|left; reflexivity].
    destruct (decide (lcd ∈ processed_ids s)); [left; reflexivity|].
    right. eexists. split; [reflexivity|]. simpl.
    eapply re_search_code_nonempty; eassumption.
Qed.

Lemma derived_code_fallback_witness :
  doc_id (record_of "33822" "L33822" "LCD") = "L" ++ "33822".
Proof.
  pose proof (derived_code_fallback
                (page_of "LCD" "a Local Coverage Determination") 33822 new_finder
                {| Finder.href := None; Finder.inner_text := "";
                   Finder.seen_at := "" |}) as (Hsimple & _ & _).
  destruct (Hsimple (record_of "33822" "L33822" "LCD")) as [_ Hderived].
  - vm_compute. reflexivity.
  - apply (Hderived "a Local Coverage Determination"); vm_compute; reflexivity.
Defined.

(** ** Sorting by integer key *)

Section KeyedSort.

Context {A : Type} (key : A -> option Z).

Lemma keyed_total (l : list A) :
  Forall (fun x => is_Some (key x)) l -> is_Some (Py.keyed key l).
Proof.
  induction 1 as [|x l [k Hk] _ [kl IH]]; simpl.
  - eexists; reflexivity.
  - rewrite Hk, IH. eexists; reflexivity.
Qed.

Lemma keyed_spec (l : list A) (kl : list (Z * A)) :
  Py.keyed key l = Some kl ->
  map snd kl = l /\ Forall (fun kx => key (snd kx) = Some (fst kx)) kl.
Proof.
  revert kl. induction l as [|x l IH]; simpl; intros kl.
  - intros [= <-]. split; constructor.
  - destruct (key x) as [k|] eqn:Hk; [|discriminate].
    destruct (Py.keyed key l) as [kl'|]; [|discriminate].
    intros [= <-]. destruct (IH kl' eq_refl) as [Hm Hf].
    split; simpl; [congruence|]. constructor; [exact Hk | exact Hf].
Qed.

Lemma insert_keyed_perm (kx : Z * A) (l : list (Z * A)) :
  Permutation (Py.insert_keyed kx l) (kx :: l).
Proof.
  induction l as [|ky l IH]; simpl; [reflexivity|].
  destruct (fst kx <=? fst ky); [reflexivity|].
  rewrite IH. apply perm_swap.
Qed.

Lemma sort_keyed_perm (l : list (Z * A)) : Permutation (Py.sort_keyed l) l.
Proof.
  induction l as [|kx l IH]; simpl; [reflexivity|].
  rewrite insert_keyed_perm. apply perm_skip, IH.
Qed.

Lemma insert_keyed_hd (kx ky : Z * A) (l : list (Z * A)) :
  key_le ky kx -> HdRel key_le ky l -> HdRel key_le ky (Py.insert_keyed kx l).
Proof.
  intros Hle Hhd. destruct l as [|kz l]; simpl.
  - constructor. exact Hle.
  - destruct (fst kx <=? fst kz); constructor; [exact Hle|].
    inversion Hhd; assumption.
Qed.

Lemma insert_keyed_sorted (kx : Z * A) (l : list (Z * A)) :
  Sorted key_le l -> Sorted key_le (Py.insert_keyed kx l).
Proof.
  induction 1 as [|ky l Hs IH Hhd]; simpl.
  - repeat constructor.
  - destruct (fst kx <=? fst ky) eqn:E.
    + constructor; [constructor; assumption|].
      constructor. unfold key_le. lia.
    + constructor; [exact IH|].
      apply insert_keyed_hd; [|exact Hhd]. unfold key_le. lia.
Qed.

Lemma sort_keyed_sorted (l : list (Z * A)) : Sorted key_le (Py.sort_keyed l).
Proof.
  induction l as [|kx l IH]; simpl; [constructor|].
  apply insert_keyed_sorted, IH.
Qed.

Lemma sorted_distinct_strict (l : list (Z * A)) :
  Sorted key_le l -> NoDup (map fst l) -> Sorted key_lt l.
Proof.
  induction 1 as [|kx l Hs IH Hhd]; simpl; intros Hnd; [constructor|].
  apply NoDup_cons in Hnd as [Hnotin Hnd].
  constructor; [apply IH, Hnd|].
  destruct Hhd as [|ky l Hle]; constructor.
  unfold key_le in Hle. unfold key_lt.
  assert (fst kx <> fst ky) by (intros Heq; apply Hnotin; rewrite Heq; simpl; left).
  lia.
Qed.

End KeyedSort.

Lemma sort_by_key_spec {A : Type} (key : A -> option Z) (l sorted : list A) :
  Py.sort_by_key key l = Some sorted ->
  sorted ≡ₚ l /\
  exists kl, sorted = map snd kl /\ Sorted key_le kl /\
             Forall (fun kx => key (snd kx) = Some (fst kx)) kl.
Proof.
  unfold Py.sort_by_key. destruct (Py.keyed key l) as [kl|] eqn:E; [|discriminate].
  intros [= <-]. apply keyed_spec in E as [Hmap Hkeys].
  pose proof (sort_keyed_perm kl) as Hperm. split.
  - rewrite <- Hmap. apply Permutation_map, Hperm.
  - exists (Py.sort_keyed kl). split; [reflexivity|]. split.
    + apply sort_keyed_sorted.
    + eapply Permutation_Forall; [symmetry; exact Hperm | exact Hkeys].
Qed.

Lemma sort_by_key_total {A : Type} (key : A -> option Z) (l : list A) :
  Forall (fun x => is_Some (key x)) l -> is_Some (Py.sort_by_key key l).
Proof.
  intros H. apply (keyed_total key) in H as [kl Hkl].
  unfold Py.sort_by_key. rewrite Hkl. eexists; reflexivity.
Qed.

Lemma adjacent_of_sorted (rel : Z -> Z -> Prop) (kl : list (Z * policy)) :
  Sorted (fun a b => rel (fst a) (fst b)) kl ->
  Forall (fun kx => id_number (snd kx) = Some (fst kx)) kl ->
  adjacent rel (map snd kl).
Proof.
  induction 1 as [|kx kl Hs IH Hhd]; intros Hkeys i p q Hp Hq; [discriminate|].
  apply Forall_cons in Hkeys as [Hkx Hkeys].
  destruct i as [|i]; simpl in Hp, Hq.
  - injection Hp as <-.
    destruct Hhd as [|ky kl Hrel]; [discriminate|]. simpl in Hq. injection Hq as <-.
    apply Forall_cons in Hkeys as [Hky _].
    exists (fst kx), (fst ky). auto.
  - exact (IH Hkeys i p q Hp Hq).
Qed.

Lemma keys_distinct (kl : list (Z * policy)) :
  Forall (fun kx => id_number (snd kx) = Some (fst kx)) kl ->
  NoDup (map id_number (map snd kl)) -> NoDup (map fst kl).
Proof.
  intros Hkeys Hnd. apply (NoDup_fmap_1 Some).
  assert (Some <$> map fst kl = map id_number (map snd kl)) as ->; [|exact Hnd].
  clear Hnd. induction Hkeys as [|kx kl Hkx _ IH]; simpl; [reflexivity|].
  rewrite Hkx. f_equal. exact IH.
Qed.

(** ** The catalog is sorted *)

Lemma sorted_catalog (l sorted : list policy) :
  Py.sort_by_key id_number l = Some sorted ->
  adjacent Z.le sorted /\
  Forall (fun p => is_Some (id_number p)) sorted /\
  (NoDup (map id_number sorted) -> adjacent Z.lt sorted).
Proof.
  intros H. apply sort_by_key_spec in H as (_ & kl & -> & Hs & Hkeys).
  split; [|split].
  - apply (adjacent_of_sorted Z.le); assumption.
  - apply Forall_map. eapply Forall_impl; [exact Hkeys|].
    intros kx ->. eexists; reflexivity.
  - intros Hnd. apply (adjacent_of_sorted Z.lt); [|assumption].
    apply (sorted_distinct_strict kl Hs), keys_distinct; assumption.
Qed.

(** ** The merge keeps the first record of each identifier *)

Lemma unique_loop_first_seen (l acc : list policy) (seen : gset string) :
  Finder.unique_loop l acc seen = (acc ++ first_seen seen l)%list.
Proof.
  revert acc seen. induction l as [|p l IH]; intros acc seen; simpl.
  - rewrite app_nil_r. reflexivity.
  - destruct (decide (lcd_id p ∈ seen)); [apply IH|].
    rewrite IH, <- app_assoc. reflexivity.
Qed.

Lemma first_seen_ids (seen : gset string) (l : list policy) (p : policy) :
  p ∈ first_seen seen l -> lcd_id p ∉ seen.
Proof.
  revert seen. induction l as [|q l IH]; intros seen; simpl.
  - intros H. inversion H.
  - destruct (decide (lcd_id q ∈ seen)); [apply IH|].
    intros [->|H]%elem_of_cons; [assumption|].
    apply IH in H. set_solver.
Qed.

Lemma first_seen_NoDup (seen : gset string) (l : list policy) :
  NoDup (map lcd_id (first_seen seen l)).
Proof.
  revert seen. induction l as [|q l IH]; intros seen; simpl; [constructor|].
  destruct (decide (lcd_id q ∈ seen)); [apply IH|].
  simpl. constructor; [|apply IH].
  intros (p & Heq & Hp)%list_elem_of_fmap.
  apply first_seen_ids in Hp. set_solver.
Qed.

Lemma first_seen_covered (seen : gset string) (l : list policy) :
  (forall p, p ∈ l -> lcd_id p ∈ seen) -> first_seen seen l = [].
Proof.
  revert seen. induction l as [|q l IH]; intros seen Hall; simpl; [reflexivity|].
  destruct (decide (lcd_id q ∈ seen)) as [_|Hn].
  - apply IH. intros p Hp. apply Hall. right. exact Hp.
  - exfalso. apply Hn, Hall. left.
Qed.

Lemma first_seen_app (seen : gset string) (l l' : list policy) :
  first_seen seen (l ++ l') =
  (first_seen seen l ++ first_seen (seen ∪ list_to_set (map lcd_id l)) l')%list.
Proof.
  revert seen. induction l as [|q l IH]; intros seen; simpl.
  - f_equal. set_solver.
  - destruct (decide (lcd_id q ∈ seen)).
    + rewrite IH. do 2 f_equal. set_solver.
    + simpl. rewrite IH. do 3 f_equal. set_solver.
Qed.

Lemma first_seen_spec (seen : gset string) (l : list policy) (p : policy) :
  p ∈ first_seen seen l <->
  exists l1 l2, l = (l1 ++ p :: l2)%list /\ (lcd_id p ∉ map lcd_id l1) /\ (lcd_id p ∉ seen).
Proof.
  revert seen. induction l as [|q l IH]; intros seen; simpl.
  - split; [intros H; inversion H|]. intros ([|? ?] & ? & ? & _); discriminate.
  - destruct (decide (lcd_id q ∈ seen)) as [Hin|Hout].
    + rewrite IH. split.
      * intros (l1 & l2 & -> & Hl1 & Hs). exists (q :: l1), l2.
        split; [reflexivity|]. split; [|exact Hs].
        simpl. intros [Heq|H]%elem_of_cons; [congruence | contradiction].
      * intros ([|q' l1] & l2 & Heq & Hl1 & Hs); simpl in Heq; injection Heq as <- ->.
        { contradiction. }
        exists l1, l2. split; [reflexivity|]. split; [|exact Hs].
        intros H. apply Hl1. simpl. right. exact H.
    + rewrite elem_of_cons, IH. split.
      * intros [->|(l1 & l2 & -> & Hl1 & Hs)].
        { exists [], l. split; [reflexivity|]. split; [|exact Hout]. simpl. apply not_elem_of_nil. }
        exists (q :: l1), l2. split; [reflexivity|]. split; [|set_solver].
        simpl. intros [Heq|H]%elem_of_cons; [|contradiction]. set_solver.
      * intros ([|q' l1] & l2 & Heq & Hl1 & Hs); simpl in Heq; injection Heq as <- ->.
        { left. reflexivity. }
        right. exists l1, l2. split; [reflexivity|].
        simpl in Hl1. apply not_elem_of_cons in Hl1 as [Hne Hl1].
        split; [exact Hl1 | set_solver].
Qed.

Lemma first_seen_sub (seen : gset string) (l : list policy) (p : policy) :
  p ∈ first_seen seen l -> p ∈ l.
Proof.
  intros (l1 & l2 & -> & _)%first_seen_spec.
  apply elem_of_app. right. left.
Qed.

Lemma first_seen_dropped (seen : gset string) (l : list policy) :
  List.length l = (List.length (first_seen seen l) + dropped seen l)%nat.
Proof.
  revert seen. induction l as [|p l IH]; intros seen; simpl; [reflexivity|].
  destruct (decide (lcd_id p ∈ seen)); simpl;
    [rewrite (IH seen) | rewrite (IH (seen ∪ {[ lcd_id p ]}))]; lia.
Qed.

(** C5: merging a list concatenated with itself gives the catalog of the
    list alone. *)
Theorem merge_idempotent (now : string) (l : list policy) :
  Finder.save_to_json now (l ++ l) = Finder.save_to_json now l.
Proof.
  unfold Finder.save_to_json. rewrite !unique_loop_first_seen. simpl.
  rewrite first_seen_app, (first_seen_covered (∅ ∪ list_to_set (map lcd_id l)) l).
  { rewrite app_nil_r. reflexivity. }
  intros p Hp. apply elem_of_union. right.
  apply elem_of_list_to_set, list_elem_of_fmap. exists p. split; [reflexivity | exact Hp].
Qed.

(** C2, as stated, fails on the count: the dictionary written and the
    value returned are the same whether or not a duplicate was dropped, so
    nothing in them counts the dropped records. *)
Lemma dropped_duplicates_not_counted :
  Finder.save_to_json "t" [seeded_33822] = Finder.save_to_json "t" [seeded_33822; probed_33822] /\
  dropped ∅ [seeded_33822] = 0%nat /\
  dropped ∅ [seeded_33822; probed_33822] = 1%nat.
Proof. repeat split; vm_compute; reflexivity. Qed.

Lemma first_seen_sublist (seen : gset string) (l : list policy) :
  first_seen seen l `sublist_of` l.
Proof.
  revert seen. induction l as [|p l IH]; intros seen; simpl; [constructor|].
  destruct (decide (lcd_id p ∈ seen)); [apply sublist_cons | apply sublist_skip]; apply IH.
Qed.

Lemma save_to_json_total (now : string) (l : list policy) :
  Forall (fun p => is_Some (id_number p)) l -> is_Some (Finder.save_to_json now l).
Proof.
  intros Hint. unfold Finder.save_to_json. rewrite unique_loop_first_seen. simpl.
  destruct (sort_by_key_total id_number (first_seen ∅ l)) as [sorted ->].
  - apply Forall_forall. intros p Hp%first_seen_sub.
    rewrite Forall_forall in Hint. apply Hint, Hp.
  - eexists; reflexivity.
Qed.

(** C2, amended: for every list of records, the merge keeps exactly the
    first record seen for each identifier, in input order, and drops
    every later one, silently: the only count kept is that of the
    surviving records.  The catalog holds exactly the surviving records,
    and is written whenever every identifier reads as an integer.  In the
    scenario the catalog is the seeded 33822 followed by 35000. *)
Theorem merge_keeps_first (now : string) (l : list policy) :
  let kept := Finder.unique_loop l [] ∅ in
  kept `sublist_of` l /\
  NoDup (map lcd_id kept) /\
  (forall p, p ∈ kept <-> first_with_id l p) /\
  List.length l = (List.length kept + dropped ∅ l)%nat /\
  (forall cat, Finder.save_to_json now l = Some cat ->
     policies cat ≡ₚ kept /\ total_policies cat = List.length kept) /\
  (Forall (fun p => is_Some (id_number p)) l -> is_Some (Finder.save_to_json now l)) /\
  policies <$> Finder.save_to_json now [seeded_33822; probed_33822; probed_35000]
    = Some [seeded_33822; probed_35000].
Proof.
  intros kept. subst kept. rewrite unique_loop_first_seen. simpl.
  refine (conj _ (conj _ (conj _ (conj _ (conj _ (conj _ _)))))).
  - apply first_seen_sublist.
  - apply first_seen_NoDup.
  - intros p. rewrite first_seen_spec. unfold first_with_id. split.
    + intros (l1 & l2 & ? & ? & _). eauto.
    + intros (l1 & l2 & ? & ?). exists l1, l2.
      split; [assumption|]. split; [assumption | apply not_elem_of_empty].
  - apply first_seen_dropped.
  - unfold Finder.save_to_json. rewrite unique_loop_first_seen. simpl.
    destruct (Py.sort_by_key id_number (first_seen ∅ l)) as [sorted|] eqn:E;
      [|discriminate].
    intros cat [= <-]. simpl. apply sort_by_key_spec in E as [Hperm _].
    split; [exact Hperm | apply Permutation_length, Hperm].
  - apply save_to_json_total.
  - vm_compute. reflexivity.
Qed.

Lemma merge_keeps_first_witness :
  is_Some (Finder.save_to_json "t" [seeded_33822; probed_33822; probed_35000]).
Proof.
  apply (merge_keeps_first "t" [seeded_33822; probed_33822; probed_35000]).
  repeat constructor; vm_compute; eexists; reflexivity.
Defined.

(** C3, as stated, fails: the merge removes duplicates by the identifier
    as a string and sorts by its value as an integer.  Two links of one
    report page that write the same number with and without a leading
    zero give a catalog with two adjacent records of equal number. *)
Lemma padded_identifier_not_strictly_ascending :
  exists p q,
    policies <$> Finder.save_to_json "t"
                   (lcd_urls (Finder.extract_lcd_links padded_listing new_finder))
      = Some [p; q] /\
    lcd_id p = "33822" /\ lcd_id q = "033822" /\
    id_number p = Some 33822 /\ id_number q = Some 33822 /\
    ~ adjacent Z.lt [p; q].
Proof.
  do 2 eexists. split; [vm_compute; reflexivity|].
  repeat split; try (vm_compute; reflexivity).
  intros H. destruct (H O _ _ eq_refl eq_refl) as (a & b & Ha & Hb & Hlt).
  vm_compute in Ha, Hb. injection Ha as <-. injection Hb as <-. lia.
Qed.

(** C3, amended: in every catalog produced by a save step the records
    are in non-decreasing order of the integer value of the identifier,
    every identifier parses as an integer, and the order is strictly
    ascending whenever no two records have the same integer value. *)
Theorem catalog_sorted (now : string) (l : list policy) (cat : catalog) :
  Finder.save_to_json now l = Some cat \/ Quick.save_lcd_policies now l = Some cat ->
  adjacent Z.le (policies cat) /\
  Forall (fun p => is_Some (id_number p)) (policies cat) /\
  (NoDup (map id_number (policies cat)) -> adjacent Z.lt (policies cat)).
Proof.
  unfold Finder.save_to_json, Quick.save_lcd_policies.
  intros [H | H].
  - destruct (Py.sort_by_key id_number (Finder.unique_loop l [] ∅)) as [sorted|] eqn:E;
      [|discriminate].
    injection H as <-. simpl. exact (sorted_catalog _ _ E).
  - destruct (Py.sort_by_key id_number l) as [sorted|] eqn:E; [|discriminate].
    injection H as <-. simpl. exact (sorted_catalog _ _ E).
Qed.

Lemma catalog_sorted_witness :
  adjacent Z.le [seeded_33822; probed_35000] /\
  Forall (fun p => is_Some (id_number p)) [seeded_33822; probed_35000] /\
  (NoDup (map id_number [seeded_33822; probed_35000]) ->
   adjacent Z.lt [seeded_33822; probed_35000]).
Proof.
  apply (catalog_sorted "t" [probed_35000; seeded_33822; probed_33822]
           {| search_date := "t"; total_policies := 2;
              source := "CMS Medicare Coverage Database"; search_method := None;
              policies := [seeded_33822; probed_35000] |}).
  left. vm_compute. reflexivity.
Defined.

(** ** The pagination loop *)

Lemma paginate_unfold (pages : Z -> Finder.results_page) (fuel : nat)
  (page_num : Z) (s : finder) (log : list Finder.page_report) :
  Finder.paginate pages (S fuel) page_num s log =
  if page_num <=? Finder.max_pages then
    match Finder.settle (Finder.results (pages page_num)) with
    | Raises => Some (s, log)
    | Returns _ =>
        let s' := Finder.harvest_selectors Finder.add_result
                    (Finder.results (pages page_num)) Finder.result_selectors s in
        let new := (List.length (lcd_urls s') - List.length (lcd_urls s))%nat in
        let report found :=
          (log ++ [{| Finder.page_no := page_num; Finder.new_count := new;
                      Finder.next_found := found |}])%list in
        match Finder.next_link (pages page_num) with
        | Raises => Some (s', report false)
        | Returns None => Some (s', report false)
        | Returns (Some click) =>
            if (0 <? new)%nat then
              match click with
              | Returns _ => Finder.paginate pages fuel (page_num + 1) s' (report true)
              | Raises => Some (s', report true)
              end
            else Some (s', report true)
        end
    end
  else Some (s, log).
Proof. reflexivity. Qed.

Ltac run_page Hle Hsettle :=
  let fuel := fresh "fuel" in
  let Hf := fresh "Hf" in
  intros [|fuel] Hf; [lia|];
  rewrite paginate_unfold, Hle, Hsettle; cbv zeta.

Lemma paginate_spec (pages : Z -> Finder.results_page) (n : nat) :
  forall (page_num : Z) (s : finder) (log : list Finder.page_report),
    page_num + Z.of_nat n = Finder.max_pages + 1 ->
    exists s' added,
      (forall fuel, (n < fuel)%nat ->
         Finder.paginate pages fuel page_num s log = Some (s', (log ++ added)%list)) /\
      (List.length added <= n)%nat /\
      (forall i r, added !! i = Some r ->
         Finder.page_no r = page_num + Z.of_nat i /\
         ((S i < List.length added)%nat -> continuing r)).
Proof.
  induction n as [|n IH]; intros page_num s log Hn.
  - exists s, []. split; [|split].
    + intros [|fuel] Hf; [lia|]. rewrite paginate_unfold.
      replace (page_num <=? Finder.max_pages) with false
        by (unfold Finder.max_pages in *; lia).
      rewrite app_nil_r. reflexivity.
    + simpl. lia.
    + intros i r H. destruct i; discriminate.
  - assert ((page_num <=? Finder.max_pages) = true) as Hle
        by (unfold Finder.max_pages in *; lia).
    assert (page_num + 1 + Z.of_nat n = Finder.max_pages + 1) as Hn' by lia.
    pose (s1 := Finder.harvest_selectors Finder.add_result
                  (Finder.results (pages page_num)) Finder.result_selectors s).
    pose (new := (List.length (lcd_urls s1) - List.length (lcd_urls s))%nat).
    pose (rep := fun found => {| Finder.page_no := page_num; Finder.new_count := new;
                                 Finder.next_found := found |}).
    assert (forall found, forall i r, [rep found] !! i = Some r ->
              Finder.page_no r = page_num + Z.of_nat i /\
              ((S i < List.length [rep found])%nat -> continuing r)) as Hone.
    { intros found [|i] r H; [|destruct i; discriminate].
      injection H as <-. simpl. split; lia. }
    destruct (Finder.settle (Finder.results (pages page_num))) as [u|] eqn:Hsettle.
    2:{ exists s, []. split; [|split].
        - run_page Hle Hsettle. rewrite app_nil_r. reflexivity.
        - simpl. lia.
        - intros i r H. destruct i; discriminate. }
    destruct (Finder.next_link (pages page_num)) as [[click|]|] eqn:Hnext.
    + destruct (0 <? new)%nat eqn:Hnew.
      * destruct click as [u'|].
        -- pose (log1 := (log ++ [rep true])%list).
           destruct (IH (page_num + 1) s1 log1 Hn')
             as (s' & added & Hrun & Hlen & Hadded). subst log1.
           exists s', (rep true :: added). split; [|split].
           ++ run_page Hle Hsettle. rewrite Hnext. fold s1 new. rewrite Hnew.
              fold (rep true). rewrite Hrun by lia.
              rewrite <- app_assoc. reflexivity.
           ++ simpl. lia.
           ++ intros [|i] r H; simpl in H.
              ** injection H as <-. simpl. split; [lia|].
                 intros _. split; [apply Nat.ltb_lt, Hnew | reflexivity].
              ** destruct (Hadded i r H) as [Hno Hcont]. split; [lia|].
                 simpl. intros Hi. apply Hcont. lia.
        -- exists s1, [rep true]. split; [|split; [simpl; lia | apply Hone]].
           run_page Hle Hsettle. rewrite Hnext. fold s1 new. rewrite Hnew. reflexivity.
      * exists s1, [rep true]. split; [|split; [simpl; lia | apply Hone]].
        run_page Hle Hsettle. rewrite Hnext. fold s1 new. rewrite Hnew. reflexivity.
    + exists s1, [rep false]. split; [|split; [simpl; lia | apply Hone]].
      run_page Hle Hsettle. rewrite Hnext. reflexivity.
    + exists s1, [rep false]. split; [|split; [simpl; lia | apply Hone]].
      run_page Hle Hsettle. rewrite Hnext. reflexivity.
Qed.

(** C6: the pagination loop of [extract_all_lcd_results] terminates:
    evaluating its condition 51 times is always enough.  It handles at
    most 50 pages, numbered from 1, and every page it handles before the
    last one gave new identifiers and had a next-page link: a page with
    no new identifier or no next-page link is the last. *)
Theorem pagination_bounded (pages : Z -> Finder.results_page) (s : finder) :
  exists s' log,
    (forall fuel, (51 <= fuel)%nat ->
       Finder.extract_all_lcd_results pages fuel s = Some (s', log)) /\
    (List.length log <= 50)%nat /\
    (forall i r, log !! i = Some r ->
       Finder.page_no r = 1 + Z.of_nat i /\
       ((S i < List.length log)%nat -> continuing r)).
Proof.
  destruct (paginate_spec pages 50 1 s [] eq_refl) as (s' & log & Hrun & Hlen & Hlog).
  exists s', log. split; [|split; assumption].
  intros fuel Hf. unfold Finder.extract_all_lcd_results. apply Hrun. lia.
Qed.

(** ** Invariants of the finder *)

Lemma fold_left_preserves {A B : Type} (P : B -> Prop) (f : B -> A -> B)
  (l : list A) (b : B) :
  (forall b a, P b -> P (f b a)) -> P b -> P (fold_left f l b).
Proof.
  intros Hf. revert b. induction l as [|a l IH]; intros b Hb; simpl; [exact Hb|].
  apply IH, Hf, Hb.
Qed.

Lemma validate_lcd_id (v : page_view) (n : Z) (p : policy) :
  Simple.validate_lcd_url v n = Some p -> lcd_id p = Py.str n.
Proof.
  unfold Simple.validate_lcd_url.
  destruct (goto v); [|discriminate].
  destruct (content v); [|discriminate].
  destruct (page_title v); [|discriminate].
  destruct (Simple.looks_valid _ _); [|discriminate].
  intros [= <-]. reflexivity.
Qed.

(** The scans over candidate numbers append a record under the string
    of the number, which is not yet processed.  A property of the finder
    that such appends keep is kept by every scan. *)
Section ScanInvariant.

Variable P : finder -> Prop.

Hypothesis P_append_str : forall (p : policy) (n : Z) (s : finder),
  P s -> lcd_id p = Py.str n -> Py.str n ∉ processed_ids s ->
  P (append_policy p (Py.str n) s).

Lemma try_pattern_keeps (web : browser) (acc : run * nat) (n : Z) :
  P (state (fst acc)) -> P (state (fst (Finder.try_pattern web acc n))).
Proof.
  destruct acc as [r found_count]. intros Hs. unfold Finder.try_pattern.
  destruct (10 <=? found_count)%nat; [exact Hs|].
  destruct (goto _); [|exact Hs].
  destruct (page_title _) as [t|]; [|exact Hs].
  destruct (_ && _); [|exact Hs].
  destruct (content _) as [c|]; [|exact Hs].
  destruct (Py.contains _ c); [|exact Hs].
  simpl. destruct (decide (_ ∈ _)) as [|Hfresh]; [exact Hs|].
  simpl. apply P_append_str; [exact Hs | reflexivity | exact Hfresh].
Qed.

Lemma try_known_keeps (web : browser) (r : run) :
  P (state r) -> P (state (Finder.try_known_lcd_patterns web r)).
Proof.
  intros Hs. unfold Finder.try_known_lcd_patterns.
  apply (fold_left_preserves (fun acc => P (state (fst acc)))).
  - intros acc id. apply try_pattern_keeps.
  - exact Hs.
Qed.

Lemma validated_keeps (v : page_view) (n : Z) (p : policy) (s : finder) :
  Simple.validate_lcd_url v n = Some p ->
  P s -> Py.str n ∉ processed_ids s -> P (append_policy p (Py.str n) s).
Proof.
  intros Hp Hs Hfresh. apply P_append_str; [exact Hs | | exact Hfresh].
  exact (validate_lcd_id _ _ _ Hp).
Qed.

Lemma validate_known_keeps (web : browser) (r : run) (n : Z) :
  P (state r) -> P (state (Simple.validate_known web r n)).
Proof.
  intros Hs. unfold Simple.validate_known, Simple.visit.
  destruct (Simple.validate_lcd_url _ n) as [p|] eqn:Hp; [|exact Hs].
  simpl. destruct (decide (_ ∈ _)) as [|Hfresh]; [exact Hs|].
  simpl. exact (validated_keeps _ _ _ _ Hp Hs Hfresh).
Qed.

Lemma probe_keeps (web : browser) (acc : run * nat) (n : Z) :
  P (state (fst acc)) -> P (state (fst (Simple.probe web acc n))).
Proof.
  destruct acc as [r range_found]. intros Hs. unfold Simple.probe, Simple.visit.
  destruct (decide (_ ∈ _)) as [|Hfresh]; [exact Hs|].
  destruct (Simple.validate_lcd_url _ n) as [p|] eqn:Hp; [|exact Hs].
  simpl. exact (validated_keeps _ _ _ _ Hp Hs Hfresh).
Qed.

Lemma scan_ids_keeps (web : browser) (r : run) (ids : list Z) :
  P (state r) -> P (state (fst (Simple.scan_ids web r ids))).
Proof.
  intros Hs. unfold Simple.scan_ids.
  apply (fold_left_preserves (fun acc => P (state (fst acc)))).
  - intros acc id. apply probe_keeps.
  - exact Hs.
Qed.

Lemma search_range_keeps (web : browser) (r : run) (rng : Z * Z * Z) :
  P (state r) -> P (state (Simple.search_range web r rng)).
Proof.
  intros Hs. destruct rng as [[start stop] step]. unfold Simple.search_range.
  pose proof (scan_ids_keeps web r (Py.range start stop step) Hs) as H1.
  destruct (Simple.scan_ids web r (Py.range start stop step)) as [r1 range_found].
  destruct (5 <? range_found)%nat; [|exact H1].
  apply scan_ids_keeps, H1.
Qed.

Lemma systematic_keeps (web : browser) (r : run) :
  P (state r) -> P (state (Simple.find_lcd_policies_systematically web r)).
Proof.
  intros Hs. unfold Simple.find_lcd_policies_systematically.
  apply (fold_left_preserves (fun r => P (state r))).
  - intros r' rng. apply search_range_keeps.
  - apply (fold_left_preserves (fun r => P (state r))); [|exact Hs].
    intros r' id. apply validate_known_keeps.
Qed.


End ScanInvariant.

(** Every append of the finders adds a record under its own identifier,
    which is not yet processed and reads as an integer.  A property of
    the finder that such appends keep is kept by every discovery
    operation. *)
Section Invariant.

Variable P : finder -> Prop.

Hypothesis P_append : forall (p : policy) (s : finder),
  P s -> lcd_id p ∉ processed_ids s -> is_Some (id_number p) ->
  P (append_policy p (lcd_id p) s).

Lemma P_append_number (p : policy) (n : Z) (s : finder) :
  P s -> lcd_id p = Py.str n -> Py.str n ∉ processed_ids s ->
  P (append_policy p (Py.str n) s).
Proof.
  intros Hs Hp Hfresh. rewrite <- Hp in *. apply P_append; [exact Hs | exact Hfresh |].
  unfold id_number. rewrite Hp, int_str. eexists; reflexivity.
Qed.

Lemma add_link_keeps (s : finder) (l : Finder.link) :
  P s -> P (Finder.add_link s l).
Proof.
  intros Hs. unfold Finder.add_link.
  destruct (Finder.href l) as [h|]; [|exact Hs].
  destruct (Finder.is_lcd_href h); [|exact Hs].
  destruct (Py.re_search "LCDId=" "" h) as [lcd|] eqn:Hlcd; [|exact Hs].
  destruct (Py.re_search "DocID=" "L" h) as [doc|]; [|exact Hs].
  destruct (decide (lcd ∈ processed_ids s)) as [|Hfresh]; [exact Hs|].
  apply (P_append (Finder.link_policy l h lcd doc) s Hs Hfresh).
  exact (re_search_number _ _ _ Hlcd).
Qed.

Lemma add_result_keeps (s : finder) (l : Finder.link) :
  P s -> P (Finder.add_result s l).
Proof.
  intros Hs. unfold Finder.add_result.
  destruct (Finder.href l) as [h|]; [|exact Hs].
  destruct (Finder.is_lcd_href h); [|exact Hs].
  destruct (Py.re_search "LCDId=" "" h) as [lcd|] eqn:Hlcd; [|exact Hs].
  destruct (decide (lcd ∈ processed_ids s)) as [|Hfresh]; [exact Hs|].
  apply (P_append (Finder.link_policy l h lcd _) s Hs Hfresh).
  exact (re_search_number _ _ _ Hlcd).
Qed.

Lemma harvest_keeps (add : finder -> Finder.link -> finder)
  (links : list (outcome Finder.link)) (s : finder) :
  (forall s l, P s -> P (add s l)) -> P s -> P (Finder.harvest add links s).
Proof.
  intros Hadd. revert s. induction links as [|[l|] links IH]; intros s Hs; simpl.
  - exact Hs.
  - apply IH, Hadd, Hs.
  - exact Hs.
Qed.

Lemma harvest_selectors_keeps (add : finder -> Finder.link -> finder)
  (pg : Finder.listing) (selectors : list string) (s : finder) :
  (forall s l, P s -> P (add s l)) ->
  P s -> P (Finder.harvest_selectors add pg selectors s).
Proof.
  intros Hadd. unfold Finder.harvest_selectors. apply fold_left_preserves.
  intros s' sel Hs'. unfold Finder.harvest_query.
  destruct (Finder.query_selector_all pg sel); [|exact Hs'].
  apply harvest_keeps; assumption.
Qed.

Lemma extract_lcd_links_keeps (pg : Finder.listing) (s : finder) :
  P s -> P (Finder.extract_lcd_links pg s).
Proof.
  intros Hs. unfold Finder.extract_lcd_links.
  destruct (Finder.settle pg); [|exact Hs].
  apply harvest_selectors_keeps; [apply add_link_keeps | exact Hs].
Qed.

Lemma paginate_keeps (pages : Z -> Finder.results_page) (fuel : nat) :
  forall page_num s log s' log',
    P s -> Finder.paginate pages fuel page_num s log = Some (s', log') -> P s'.
Proof.
  induction fuel as [|fuel IH]; intros page_num s log s' log' Hs; [discriminate|].
  rewrite paginate_unfold.
  destruct (page_num <=? Finder.max_pages); [|intros [= <- _]; exact Hs].
  destruct (Finder.settle _); [|intros [= <- _]; exact Hs].
  cbv zeta.
  assert (P (Finder.harvest_selectors Finder.add_result
            (Finder.results (pages page_num)) Finder.result_selectors s)) as Hs1
      by (apply harvest_selectors_keeps; [apply add_result_keeps | exact Hs]).
  destruct (Finder.next_link _) as [[click|]|]; try (intros [= <- _]; exact Hs1).
  destruct (0 <? _)%nat; [|intros [= <- _]; exact Hs1].
  destruct click; [|intros [= <- _]; exact Hs1].
  apply IH, Hs1.
Qed.

Lemma search_via_reports_keeps (open : string -> outcome Finder.listing) (s : finder) :
  P s -> P (Finder.search_via_reports open s).
Proof.
  intros Hs. unfold Finder.search_via_reports.
  apply fold_left_preserves; [|exact Hs].
  intros s' u Hs'. destruct (open u); [|exact Hs'].
  apply extract_lcd_links_keeps, Hs'.
Qed.

Lemma search_via_keyword_keeps (k : Finder.keyword_visit) (s : finder) :
  P s -> P (Finder.search_via_keyword k s).
Proof.
  intros Hs. unfold Finder.search_via_keyword.
  destruct (Finder.opened k); [|exact Hs].
  destruct (Finder.search_input k) as [[[|]|]|]; try exact Hs.
  destruct (Finder.search_button k) as [[[|]|]|]; try exact Hs.
  apply extract_lcd_links_keeps, Hs.
Qed.

Lemma comprehensive_search_keeps (open : string -> outcome Finder.listing)
  (k : Finder.keyword_visit) (web : browser) (r : run) :
  P (state r) -> P (state (Finder.comprehensive_search open k web r)).
Proof.
  intros Hs. unfold Finder.comprehensive_search.
  apply (try_known_keeps P P_append_number). simpl.
  apply search_via_keyword_keeps, search_via_reports_keeps, Hs.
Qed.

End Invariant.

Lemma append_policy_consistent (p : policy) (s : finder) :
  consistent s -> lcd_id p ∉ processed_ids s -> is_Some (id_number p) ->
  consistent (append_policy p (lcd_id p) s).
Proof.
  intros [Hnd Hin] Hfresh _. split; simpl.
  - rewrite map_app. apply NoDup_app. split; [exact Hnd|]. split.
    + intros x (q & -> & Hq)%list_elem_of_fmap [Heq|Hnil]%elem_of_cons.
      * apply Hfresh. rewrite <- Heq. apply Hin, Hq.
      * inversion Hnil.
    + simpl. apply NoDup_singleton.
  - intros q [Hq | ->%list_elem_of_singleton]%elem_of_app.
    + apply elem_of_union. left. apply Hin, Hq.
    + apply elem_of_union. right. apply elem_of_singleton. reflexivity.
Qed.

Lemma append_policy_numeric (p : policy) (s : finder) :
  numeric s -> lcd_id p ∉ processed_ids s -> is_Some (id_number p) ->
  numeric (append_policy p (lcd_id p) s).
Proof.
  intros Hs _ Hp. unfold numeric. simpl. apply Forall_app. split; [exact Hs|].
  constructor; [exact Hp | constructor].
Qed.

Lemma new_finder_consistent : consistent new_finder.
Proof.
  split; simpl; [constructor|]. intros p H. inversion H.
Qed.

(** C9: every discovery operation keeps the identifiers of the records of
    [lcd_urls] pairwise distinct and members of [processed_ids]: link
    extraction, the paginated extraction, the report and keyword
    searches, the pattern probe, the comprehensive search, and the
    systematic search of the simple finder. *)
Theorem discovery_keeps_consistency (r : run) :
  consistent (state r) ->
  (forall pg, consistent (Finder.extract_lcd_links pg (state r))) /\
  (forall pages fuel s' log,
      Finder.extract_all_lcd_results pages fuel (state r) = Some (s', log) ->
      consistent s') /\
  (forall open, consistent (Finder.search_via_reports open (state r))) /\
  (forall k, consistent (Finder.search_via_keyword k (state r))) /\
  (forall web, consistent (state (Finder.try_known_lcd_patterns web r))) /\
  (forall open k web, consistent (state (Finder.comprehensive_search open k web r))) /\
  (forall web, consistent (state (Simple.find_lcd_policies_systematically web r))).
Proof.
  intros Hs.
  refine (conj _ (conj _ (conj _ (conj _ (conj _ (conj _ _)))))).
  - intros pg. apply (extract_lcd_links_keeps _ append_policy_consistent), Hs.
  - intros pages fuel s' log.
    apply (paginate_keeps _ append_policy_consistent), Hs.
  - intros open. apply (search_via_reports_keeps _ append_policy_consistent), Hs.
  - intros k. apply (search_via_keyword_keeps _ append_policy_consistent), Hs.
  - intros web.
    apply (try_known_keeps _ (P_append_number _ append_policy_consistent)), Hs.
  - intros open k web.
    apply (comprehensive_search_keeps _ append_policy_consistent), Hs.
  - intros web.
    apply (systematic_keeps _ (P_append_number _ append_policy_consistent)), Hs.
Qed.

Lemma discovery_keeps_consistency_witness :
  (forall pg, consistent (Finder.extract_lcd_links pg (state new_run))) /\
  (forall pages fuel s' log,
      Finder.extract_all_lcd_results pages fuel (state new_run) = Some (s', log) ->
      consistent s') /\
  (forall open, consistent (Finder.search_via_reports open (state new_run))) /\
  (forall k, consistent (Finder.search_via_keyword k (state new_run))) /\
  (forall web, consistent (state (Finder.try_known_lcd_patterns web new_run))) /\
  (forall open k web,
      consistent (state (Finder.comprehensive_search open k web new_run))) /\
  (forall web, consistent (state (Simple.find_lcd_policies_systematically web new_run))).
Proof.
  apply (discovery_keeps_consistency new_run).
  split; simpl; [constructor|]. intros p H. inversion H.
Defined.

(** ** Identifiers already processed *)

Lemma skips_processed_refl (r : run) : skips_processed r r.
Proof.
  exists [], []. rewrite !app_nil_r.
  repeat split; try reflexivity; intros x H; inversion H.
Qed.

Lemma skips_processed_trans (r1 r2 r3 : run) :
  skips_processed r1 r2 -> skips_processed r2 r3 -> skips_processed r1 r3.
Proof.
  intros (new & added & Hf & Hu & Hsub & Hnew & Hadded)
         (new' & added' & Hf' & Hu' & Hsub' & Hnew' & Hadded').
  exists (new ++ new')%list, (added ++ added')%list.
  rewrite Hf', Hf, Hu', Hu, <- !app_assoc.
  split; [reflexivity|]. split; [reflexivity|]. split; [set_solver|]. split.
  - intros i [Hi|Hi]%elem_of_app; [apply Hnew, Hi|].
    apply Hnew' in Hi. set_solver.
  - intros p [Hp|Hp]%elem_of_app; [apply Hadded, Hp|].
    apply Hadded' in Hp. set_solver.
Qed.

Lemma probe_skips (web : browser) (r : run) (n : nat) (id : Z) :
  skips_processed r (fst (Simple.probe web (r, n) id)).
Proof.
  unfold Simple.probe, Simple.visit.
  destruct (decide (Py.str id ∈ processed_ids (state r))) as [Hin|Hout].
  { apply skips_processed_refl. }
  destruct (Simple.validate_lcd_url _ id) as [p|] eqn:Hp; simpl.
  - exists [id], [p]. simpl.
    split; [reflexivity|]. split; [reflexivity|]. split; [set_solver|]. split.
    + intros i ->%list_elem_of_singleton. exact Hout.
    + intros q ->%list_elem_of_singleton.
      rewrite (validate_lcd_id _ _ _ Hp). exact Hout.
  - exists [id], []. simpl. rewrite app_nil_r.
    split; [reflexivity|]. split; [reflexivity|]. split; [reflexivity|]. split.
    + intros i ->%list_elem_of_singleton. exact Hout.
    + intros q H. inversion H.
Qed.

Lemma scan_ids_skips (web : browser) (ids : list Z) :
  forall (r : run) (n : nat),
    skips_processed r (fst (fold_left (Simple.probe web) ids (r, n))).
Proof.
  induction ids as [|id ids IH]; intros r n; cbn [fold_left].
  - apply skips_processed_refl.
  - pose proof (probe_skips web r n id) as Hstep.
    destruct (Simple.probe web (r, n) id) as [r1 n1].
    exact (skips_processed_trans _ _ _ Hstep (IH r1 n1)).
Qed.

(** C7, as stated, fails for [try_known_lcd_patterns]: it navigates to
    the page of every candidate before it looks at [processed_ids].
    Identifier 30000, already processed, is fetched again. *)
Lemma processed_identifier_is_fetched :
  Py.str 30000 ∈ processed_ids (state found_30000) /\
  head (fetched (Finder.try_known_lcd_patterns all_valid found_30000)) = Some 30000 /\
  head (lcd_urls (state (Finder.try_known_lcd_patterns all_valid found_30000)))
    = head (lcd_urls (state found_30000)).
Proof.
  split; [simpl; apply elem_of_singleton; reflexivity|].
  split; vm_compute; reflexivity.
Qed.

(** C7, amended: a candidate that is already in [processed_ids] when a
    scan reaches it gets no record, in both scanners.  The range scans of
    the simple finder also issue no fetch for it; [try_known_lcd_patterns]
    tests membership only after the page was fetched. *)
Theorem processed_identifier_is_skipped (web : browser) (r : run) (n : nat) (id : Z) :
  Py.str id ∈ processed_ids (state r) ->
  Simple.probe web (r, n) id = (r, n) /\
  state (fst (Finder.try_pattern web (r, n) id)) = state r /\
  snd (Finder.try_pattern web (r, n) id) = n /\
  (forall ids,
     exists new added,
       fetched (fst (Simple.scan_ids web r ids)) = (fetched r ++ new)%list /\
       lcd_urls (state (fst (Simple.scan_ids web r ids)))
         = (lcd_urls (state r) ++ added)%list /\
       (id ∉ new) /\ (Py.str id ∉ map lcd_id added)).
Proof.
  intros Hin. split; [|split; [|split]].
  - unfold Simple.probe. destruct (decide _); [reflexivity | contradiction].
  - unfold Finder.try_pattern.
    destruct (10 <=? n)%nat; [reflexivity|].
    destruct (goto _); [|reflexivity].
    destruct (page_title _); [|reflexivity].
    destruct (_ && _); [|reflexivity].
    destruct (content _); [|reflexivity].
    destruct (Py.contains _ _); [|reflexivity].
    simpl. destruct (decide _); [reflexivity | contradiction].
  - unfold Finder.try_pattern.
    destruct (10 <=? n)%nat; [reflexivity|].
    destruct (goto _); [|reflexivity].
    destruct (page_title _); [|reflexivity].
    destruct (_ && _); [|reflexivity].
    destruct (content _); [|reflexivity].
    destruct (Py.contains _ _); [|reflexivity].
    simpl. destruct (decide _); [reflexivity | contradiction].
  - intros ids. unfold Simple.scan_ids.
    destruct (scan_ids_skips web ids r O) as (new & added & Hf & Hu & _ & Hnew & Hadded).
    fold (Simple.scan_ids web r ids) in Hf, Hu.
    exists new, added. split; [exact Hf|]. split; [exact Hu|]. split.
    + intros Hi. exact (Hnew id Hi Hin).
    + intros (p & Heq & Hp)%list_elem_of_fmap.
      apply (Hadded p Hp). rewrite <- Heq. exact Hin.
Qed.

Lemma processed_identifier_is_skipped_witness :
  Simple.probe all_valid (found_30000, O) 30000 = (found_30000, O) /\
  state (fst (Finder.try_pattern all_valid (found_30000, O) 30000)) = state found_30000 /\
  snd (Finder.try_pattern all_valid (found_30000, O) 30000) = O /\
  (forall ids,
     exists new added,
       fetched (fst (Simple.scan_ids all_valid found_30000 ids))
         = (fetched found_30000 ++ new)%list /\
       lcd_urls (state (fst (Simple.scan_ids all_valid found_30000 ids)))
         = (lcd_urls (state found_30000) ++ added)%list /\
       (30000 ∉ new) /\ (Py.str 30000 ∉ map lcd_id added)).
Proof.
  apply (processed_identifier_is_skipped all_valid found_30000 O 30000).
  simpl. apply elem_of_singleton. reflexivity.
Defined.

(** ** Failed fetches *)

Lemma quick_scan_acc (web : browser) (ids : list Z) :
  forall (i : nat) (found : list policy),
    Quick.scan web i ids found = (found ++ Quick.scan web i ids [])%list.
Proof.
  induction ids as [|id ids IH]; intros i found; simpl.
  - rewrite app_nil_r. reflexivity.
  - destruct (Quick.probe (web i id) id) as [p|].
    + rewrite (IH (S i) (found ++ [p])%list), (IH (S i) [p]), <- app_assoc. reflexivity.
    + apply IH.
Qed.

Lemma quick_scan_app (web : browser) (ids ids' : list Z) :
  forall (i : nat) (found : list policy),
    Quick.scan web i (ids ++ ids') found
    = Quick.scan web (i + List.length ids) ids' (Quick.scan web i ids found).
Proof.
  induction ids as [|id ids IH]; intros i found; simpl.
  - rewrite Nat.add_0_r. reflexivity.
  - rewrite IH. replace (S i + List.length ids)%nat with (i + S (List.length ids))%nat by lia.
    reflexivity.
Qed.

(** C8, as stated, fails on the count: a scan in which every fetch fails
    and a scan in which every page loads and is rejected return the same
    records, so nothing returned counts the failures. *)
Lemma failed_fetches_not_counted :
  Quick.quick_find_lcd_policies all_down = Quick.quick_find_lcd_policies all_search_pages /\
  Quick.failed_fetches all_down 0 Quick.test_ids = 75%nat /\
  Quick.failed_fetches all_search_pages 0 Quick.test_ids = 0%nat.
Proof. repeat split; vm_compute; reflexivity. Qed.

(** C8, amended: a candidate whose fetch fails is skipped, with no record
    and no count of the failure, and the scan goes on: the records
    returned are those of the candidates before it followed by those of
    the candidates after it.  In the finders with a state, the failed
    fetch leaves [lcd_urls] and [processed_ids] as they were. *)
Theorem failed_fetch_is_skipped (web : browser) (id : Z) (i : nat)
  (before after : list Z) (r : run) (n : nat) :
  (forall k, goto (web k id) = Raises) ->
  Quick.scan web i (before ++ id :: after) []
    = (Quick.scan web i before []
       ++ Quick.scan web (S (i + List.length before)) after [])%list /\
  (forall k, Simple.validate_lcd_url (web k id) id = None) /\
  state (fst (Simple.probe web (r, n) id)) = state r /\
  snd (Simple.probe web (r, n) id) = n /\
  state (Simple.validate_known web r id) = state r /\
  state (fst (Finder.try_pattern web (r, n) id)) = state r /\
  snd (Finder.try_pattern web (r, n) id) = n.
Proof.
  intros Hdown.
  assert (forall k, Simple.validate_lcd_url (web k id) id = None) as Hnone.
  { intros k. unfold Simple.validate_lcd_url. rewrite Hdown. reflexivity. }
  refine (conj _ (conj Hnone (conj _ (conj _ (conj _ (conj _ _)))))).
  - rewrite quick_scan_app. simpl. unfold Quick.probe at 1. rewrite Hdown.
    replace (i + List.length before + 1)%nat with (S (i + List.length before)) by lia.
    apply quick_scan_acc.
  - unfold Simple.probe, Simple.visit. rewrite Hnone.
    destruct (decide _); reflexivity.
  - unfold Simple.probe, Simple.visit. rewrite Hnone.
    destruct (decide _); reflexivity.
  - unfold Simple.validate_known, Simple.visit. rewrite Hnone. reflexivity.
  - unfold Finder.try_pattern. rewrite Hdown.
    destruct (10 <=? n)%nat; reflexivity.
  - unfold Finder.try_pattern. rewrite Hdown.
    destruct (10 <=? n)%nat; reflexivity.
Qed.

Lemma failed_fetch_is_skipped_witness :
  Quick.scan down_35000 0 ([33822] ++ 35000 :: [35070]) []
    = (Quick.scan down_35000 0 [33822] []
       ++ Quick.scan down_35000 (S (0 + List.length [33822])) [35070] [])%list /\
  (forall k, Simple.validate_lcd_url (down_35000 k 35000) 35000 = None) /\
  state (fst (Simple.probe down_35000 (new_run, O) 35000)) = state new_run /\
  snd (Simple.probe down_35000 (new_run, O) 35000) = O /\
  state (Simple.validate_known down_35000 new_run 35000) = state new_run /\
  state (fst (Finder.try_pattern down_35000 (new_run, O) 35000)) = state new_run /\
  snd (Finder.try_pattern down_35000 (new_run, O) 35000) = O.
Proof.
  apply (failed_fetch_is_skipped down_35000 35000 0 [33822] [35070] new_run O).
  intros k. reflexivity.
Defined.

(** ** The sample of the bulk downloader *)

(** C10, as stated, fails for a negative [sample_size], which the
    command line accepts: [validated[:-1]] is all but the last validated
    policy, so one policy is selected for a sample size of -1. *)
Lemma negative_sample_size_selects_more :
  Bulk.load_policy_urls true (-1) (Bulk.Loaded [seeded_33822; probed_35000])
    = [seeded_33822] /\
  -1 < Z.of_nat (List.length [seeded_33822]).
Proof. split; [vm_compute; reflexivity | simpl; lia]. Qed.

(** C10, amended: for every loaded policy list and every [sample_size]
    that is not negative, the sample is the first [sample_size] policies
    not marked estimated, in their original order, followed, when there
    are fewer of them than [sample_size], by the first estimated policies
    that fill it up; it has at most [sample_size] policies, and holds an
    estimated policy only when fewer than [sample_size] policies are not
    estimated, in which case all of those are selected. *)
Theorem sample_prefers_validated (sample_size : Z) (all : list policy) :
  0 <= sample_size ->
  let validated := List.filter (fun p => negb (Bulk.is_estimated p)) all in
  let estimated := List.filter Bulk.is_estimated all in
  let chosen := Bulk.load_policy_urls true sample_size (Bulk.Loaded all) in
  chosen = (firstn (Z.to_nat sample_size) validated
            ++ firstn (Z.to_nat sample_size - List.length validated) estimated)%list /\
  Z.of_nat (List.length chosen) <= sample_size /\
  (forall p, p ∈ chosen -> Bulk.is_estimated p = true ->
     Z.of_nat (List.length validated) < sample_size /\
     exists rest, chosen = (validated ++ rest)%list).
Proof.
  intros Hn validated estimated chosen.
  assert (chosen = (firstn (Z.to_nat sample_size) validated
            ++ firstn (Z.to_nat sample_size - List.length validated) estimated)%list)
    as Hchosen.
  { subst chosen. unfold Bulk.load_policy_urls, Bulk.sample, Py.slice_to.
    fold validated estimated.
    rewrite (proj2 (Z.leb_le 0 sample_size) Hn), length_firstn.
    destruct (Z.of_nat (Nat.min (Z.to_nat sample_size) (List.length validated))
              <? sample_size) eqn:E.
    - apply Z.ltb_lt in E.
      rewrite (proj2 (Z.leb_le 0 _)) by lia. do 2 f_equal. lia.
    - apply Z.ltb_ge in E.
      replace (Z.to_nat sample_size - List.length validated)%nat with O by lia.
      simpl. rewrite app_nil_r. reflexivity. }
  split; [exact Hchosen|]. split.
  - rewrite Hchosen, length_app, !length_firstn. lia.
  - intros p Hp Hest. rewrite Hchosen in Hp.
    apply elem_of_app in Hp as [Hp|Hp].
    + apply subseteq_take, list_elem_of_In, filter_In in Hp as [_ Hp].
      rewrite Hest in Hp. discriminate.
    + assert (List.length validated < Z.to_nat sample_size)%nat as Hlt.
      { destruct (decide (List.length validated < Z.to_nat sample_size)%nat)
          as [|Hge]; [assumption|].
        replace (Z.to_nat sample_size - List.length validated)%nat with O in Hp by lia.
        inversion Hp. }
      split; [lia|]. eexists. rewrite Hchosen. f_equal. apply take_ge. lia.
Qed.

Lemma sample_prefers_validated_witness :
  Bulk.load_policy_urls true 2 (Bulk.Loaded [estimated_33800; seeded_33822])
    = [seeded_33822; estimated_33800].
Proof.
  destruct (sample_prefers_validated 2 [estimated_33800; seeded_33822]) as [H _].
  - lia.
  - exact H.
Defined.

(** ** The catalog of the quick finder is strictly ascending *)

Lemma quick_probe_id (v : page_view) (n : Z) (p : policy) :
  Quick.probe v n = Some p -> lcd_id p = Py.str n.
Proof.
  unfold Quick.probe.
  destruct (goto v); [|discriminate].
  destruct (page_title v); [|discriminate].
  destruct (Quick.looks_valid _); [|discriminate].
  intros [= <-]. reflexivity.
Qed.

Lemma quick_scan_numbers (web : browser) (ids : list Z) :
  forall i, map id_number (Quick.scan web i ids [])
            `sublist_of` map (fun n => Py.int (Py.str n)) ids.
Proof.
  induction ids as [|id ids IH]; intros i; simpl; [constructor|].
  destruct (Quick.probe (web i id) id) as [p|] eqn:Hp.
  - rewrite quick_scan_acc. simpl. unfold id_number at 1.
    rewrite (quick_probe_id _ _ _ Hp). apply sublist_skip, IH.
  - apply sublist_cons, IH.
Qed.

Lemma test_ids_numbers :
  map (fun n => Py.int (Py.str n)) Quick.test_ids = map Some Quick.test_ids.
Proof. vm_compute. reflexivity. Qed.

Lemma test_ids_distinct : NoDup Quick.test_ids.
Proof. apply (bool_decide_unpack _). vm_compute. exact I. Qed.

Lemma quick_find_numbers (web : browser) :
  map id_number (Quick.quick_find_lcd_policies web) `sublist_of` map Some Quick.test_ids.
Proof.
  unfold Quick.quick_find_lcd_policies. rewrite <- test_ids_numbers.
  apply quick_scan_numbers.
Qed.

Lemma distinct_numbers_sorted_strictly (found : list policy) :
  NoDup (map id_number found) -> Forall (fun p => is_Some (id_number p)) found ->
  exists sorted,
    Py.sort_by_key id_number found = Some sorted /\ adjacent Z.lt sorted.
Proof.
  intros Hnd Hnum.
  destruct (sort_by_key_total id_number found Hnum) as [sorted Hsorted].
  exists sorted. split; [exact Hsorted|].
  destruct (sorted_catalog _ _ Hsorted) as (_ & _ & Hstrict).
  apply Hstrict. apply sort_by_key_spec in Hsorted as [Hperm _].
  rewrite Hperm. exact Hnd.
Qed.

Lemma sublist_sorted_strictly (found : list policy) (ids : list Z) :
  NoDup ids -> map id_number found `sublist_of` map Some ids ->
  exists sorted,
    Py.sort_by_key id_number found = Some sorted /\ adjacent Z.lt sorted.
Proof.
  intros Hids Hsub. apply distinct_numbers_sorted_strictly.
  - eapply sublist_NoDup; [|exact Hsub]. apply (NoDup_fmap_2 Some), Hids.
  - apply Forall_forall. intros p Hp.
    assert (id_number p ∈ map Some ids) as Hin.
    { eapply elem_of_sublist; [|exact Hsub].
      apply list_elem_of_fmap. exists p. split; [reflexivity | exact Hp]. }
    apply list_elem_of_fmap in Hin as (n & Hn & _). rewrite Hn. eexists; reflexivity.
Qed.

Lemma save_lcd_policies_sorted (now : string) (found sorted : list policy) :
  Py.sort_by_key id_number found = Some sorted ->
  exists cat, Quick.save_lcd_policies now found = Some cat /\ policies cat = sorted.
Proof.
  intros H. unfold Quick.save_lcd_policies. rewrite H. eexists.
  split; reflexivity.
Qed.

(** X1: whatever the site shows, the quick finder and its save step
    write a catalog, no identifier failing to read as an integer, and the
    records of the catalog are in strictly ascending order of the integer
    value of their identifiers. *)
Lemma quick_catalog_strictly_ascending (web : browser) (now : string) :
  exists cat,
    Quick.save_lcd_policies now (Quick.quick_find_lcd_policies web) = Some cat /\
    adjacent Z.lt (policies cat).
Proof.
  destruct (sublist_sorted_strictly _ _ test_ids_distinct (quick_find_numbers web))
    as (sorted & Hsorted & Hstrict).
  destruct (save_lcd_policies_sorted now _ _ Hsorted) as (cat & Hcat & Hpol).
  exists cat. split; [exact Hcat|]. rewrite Hpol. exact Hstrict.
Qed.

(** ** The catalog of the simple finder is strictly ascending *)

Lemma append_str_canonical (p : policy) (n : Z) (s : finder) :
  canonical s -> lcd_id p = Py.str n -> Py.str n ∉ processed_ids s ->
  canonical (append_policy p (Py.str n) s).
Proof.
  intros Hs Hp _. unfold canonical. simpl. apply Forall_app. split; [exact Hs|].
  constructor; [exists n; exact Hp | constructor].
Qed.

Lemma canonical_distinct_numbers (s : finder) :
  consistent s -> canonical s ->
  NoDup (map id_number (lcd_urls s)) /\
  Forall (fun p => is_Some (id_number p)) (lcd_urls s).
Proof.
  intros [Hnd _] Hcan. unfold canonical in Hcan. rewrite Forall_forall in Hcan. split.
  - change (map id_number (lcd_urls s)) with (map (fun p => Py.int (lcd_id p)) (lcd_urls s)).
    rewrite <- (map_map lcd_id Py.int).
    apply NoDup_fmap_2_strong; [|exact Hnd].
    intros x y (p & -> & Hp)%list_elem_of_fmap (q & -> & Hq)%list_elem_of_fmap.
    destruct (Hcan p Hp) as [n ->]. destruct (Hcan q Hq) as [m ->].
    rewrite !int_str. intros [= ->]. reflexivity.
  - apply Forall_forall. intros p Hp. destruct (Hcan p Hp) as [n Hn].
    unfold id_number. rewrite Hn, int_str. eexists; reflexivity.
Qed.

Lemma canonical_catalog_strictly_ascending (now : string) (s : finder) :
  consistent s -> canonical s ->
  exists cat, Simple.save_to_json now s = Some cat /\ adjacent Z.lt (policies cat).
Proof.
  intros Hcons Hcan.
  destruct (canonical_distinct_numbers s Hcons Hcan) as [Hnd Hnum].
  destruct (distinct_numbers_sorted_strictly (lcd_urls s) Hnd Hnum)
    as (sorted & Hsorted & Hstrict).
  unfold Simple.save_to_json. rewrite Hsorted. eexists.
  split; [reflexivity | exact Hstrict].
Qed.

Lemma systematic_run_consistent (web : browser) :
  consistent (state (Simple.find_lcd_policies_systematically web new_run)).
Proof.
  apply (systematic_keeps _ (P_append_number _ append_policy_consistent)).
  exact new_finder_consistent.
Qed.

Lemma systematic_run_canonical (web : browser) :
  canonical (state (Simple.find_lcd_policies_systematically web new_run)).
Proof.
  apply (systematic_keeps _ append_str_canonical). constructor.
Qed.

(** X2: whatever the site shows, the systematic search of a new simple
    finder followed by its save step writes a catalog whose records are
    in strictly ascending order of the integer value of their
    identifiers. *)
Lemma systematic_catalog_strictly_ascending (web : browser) (now : string) :
  exists cat,
    Simple.save_to_json now (state (Simple.find_lcd_policies_systematically web new_run))
      = Some cat /\
    adjacent Z.lt (policies cat).
Proof.
  exact (canonical_catalog_strictly_ascending now _
           (systematic_run_consistent web) (systematic_run_canonical web)).
Qed.

(** ** Every run writes a catalog *)

Lemma comprehensive_search_saves (open : string -> outcome Finder.listing)
  (k : Finder.keyword_visit) (web : browser) (now : string) :
  is_Some (Finder.save_to_json now
             (lcd_urls (state (Finder.comprehensive_search open k web new_run)))).
Proof.
  apply save_to_json_total.
  apply (comprehensive_search_keeps numeric append_policy_numeric). constructor.
Qed.

Lemma systematic_search_saves (web : browser) (now : string) :
  is_Some (Simple.save_to_json now
             (state (Simple.find_lcd_policies_systematically web new_run))).
Proof.
  unfold Simple.save_to_json.
  destruct (sort_by_key_total id_number
              (lcd_urls (state (Simple.find_lcd_policies_systematically web new_run))))
    as [sorted ->]; [|eexists; reflexivity].
  apply (systematic_keeps _ (P_append_number _ append_policy_numeric)). constructor.
Qed.

(** ** Saving: what is kept, when it fails, and saving again *)

Lemma keyed_none {A : Type} (key : A -> option Z) (l : list A) :
  Py.keyed key l = None <-> Exists (fun x => key x = None) l.
Proof.
  induction l as [|x l IH]; simpl.
  - split; [discriminate | intros H; inversion H].
  - rewrite Exists_cons. destruct (key x) eqn:E.
    + destruct (Py.keyed key l); simpl.
      * split; [discriminate|]. intros [H|H]; [discriminate|].
        apply IH in H. discriminate.
      * split; [|reflexivity]. intros _. right. apply IH. reflexivity.
    + split; [|reflexivity]. intros _. left. reflexivity.
Qed.

Lemma sort_by_key_none {A : Type} (key : A -> option Z) (l : list A) :
  Py.sort_by_key key l = None <-> Exists (fun x => key x = None) l.
Proof.
  rewrite <- keyed_none. unfold Py.sort_by_key.
  destruct (Py.keyed key l); simpl; split; intros H; congruence.
Qed.

Lemma first_seen_represents (seen : gset string) (l : list policy) (p : policy) :
  p ∈ l ->
  lcd_id p ∈ seen \/ exists q, q ∈ first_seen seen l /\ lcd_id q = lcd_id p.
Proof.
  revert seen. induction l as [|x l IH]; intros seen Hp; [inversion Hp|].
  simpl. apply elem_of_cons in Hp as [->|Hp].
  - destruct (decide (lcd_id x ∈ seen)); [left; assumption|].
    right. exists x. split; [apply list_elem_of_here | reflexivity].
  - destruct (decide (lcd_id x ∈ seen)); [apply IH, Hp|].
    destruct (IH (seen ∪ {[ lcd_id x ]}) Hp) as [Hin | (q & Hq & Heq)].
    + apply elem_of_union in Hin as [Hin|Hin]; [left; exact Hin|].
      apply elem_of_singleton in Hin. right. exists x.
      split; [apply list_elem_of_here | symmetry; exact Hin].
    + right. exists q. split; [apply list_elem_of_further, Hq | exact Heq].
Qed.

Lemma keyed_of_keys {A : Type} (key : A -> option Z) (kl : list (Z * A)) :
  Forall (fun kx => key (snd kx) = Some (fst kx)) kl ->
  Py.keyed key (map snd kl) = Some kl.
Proof.
  induction 1 as [|[k x] kl Hk _ IH]; simpl in *; [reflexivity|].
  rewrite Hk, IH. reflexivity.
Qed.

Lemma sort_keyed_sorted_same {A : Type} (l : list (Z * A)) :
  Sorted key_le l -> Py.sort_keyed l = l.
Proof.
  induction 1 as [|a l Hs IH Hhd]; simpl; [reflexivity|].
  rewrite IH. destruct Hhd as [|b l Hab]; simpl; [reflexivity|].
  unfold key_le in Hab. rewrite (proj2 (Z.leb_le _ _) Hab). reflexivity.
Qed.

Lemma sort_by_key_again {A : Type} (key : A -> option Z) (l sorted : list A) :
  Py.sort_by_key key l = Some sorted -> Py.sort_by_key key sorted = Some sorted.
Proof.
  intros H. apply sort_by_key_spec in H as (_ & kl & -> & Hsorted & Hkeys).
  unfold Py.sort_by_key. rewrite (keyed_of_keys key kl Hkeys). simpl.
  rewrite (sort_keyed_sorted_same kl Hsorted). reflexivity.
Qed.

Lemma first_seen_distinct (seen : gset string) (l : list policy) :
  NoDup (map lcd_id l) -> (forall p, p ∈ l -> lcd_id p ∉ seen) ->
  first_seen seen l = l.
Proof.
  revert seen. induction l as [|x l IH]; intros seen Hnd Hseen; [reflexivity|].
  simpl in *. apply NoDup_cons in Hnd as [Hx Hnd].
  destruct (decide (lcd_id x ∈ seen)) as [Hin|_].
  - exfalso. exact (Hseen x (list_elem_of_here _ _) Hin).
  - f_equal. apply IH; [exact Hnd|]. intros p Hp Hin.
    apply elem_of_union in Hin as [Hin|Hin].
    + exact (Hseen p (list_elem_of_further _ _ _ Hp) Hin).
    + apply elem_of_singleton in Hin. apply Hx. rewrite <- Hin.
      apply list_elem_of_fmap. exists p. split; [reflexivity | exact Hp].
Qed.

Lemma unique_loop_again (l sorted : list policy) :
  sorted ≡ₚ Finder.unique_loop l [] ∅ -> Finder.unique_loop sorted [] ∅ = sorted.
Proof.
  intros Hperm. rewrite unique_loop_first_seen. simpl.
  apply first_seen_distinct.
  - rewrite Hperm, unique_loop_first_seen. simpl. apply first_seen_NoDup.
  - intros p _. apply not_elem_of_empty.
Qed.

(** X3: a catalog that was written is a fixed point of the save steps:
    saving the policies of the catalog again, at the same time, writes
    the same catalog, record for record, in the merge of the finder, in
    the quick finder and in the simple finder. *)
Theorem saving_a_catalog_again (now : string) (l : list policy) (cat : catalog) :
  (Finder.save_to_json now l = Some cat ->
   Finder.save_to_json now (policies cat) = Some cat) /\
  (Quick.save_lcd_policies now l = Some cat ->
   Quick.save_lcd_policies now (policies cat) = Some cat) /\
  (forall ids ids',
     Simple.save_to_json now {| lcd_urls := l; processed_ids := ids |} = Some cat ->
     Simple.save_to_json now {| lcd_urls := policies cat; processed_ids := ids' |}
       = Some cat).
Proof.
  refine (conj _ (conj _ _)).
  - unfold Finder.save_to_json.
    destruct (Py.sort_by_key id_number (Finder.unique_loop l [] ∅)) as [sorted|] eqn:E;
      [|discriminate].
    intros [= <-]. simpl.
    rewrite (unique_loop_again l sorted), (sort_by_key_again _ _ _ E); [reflexivity|].
    apply sort_by_key_spec in E as [Hperm _]. exact Hperm.
  - unfold Quick.save_lcd_policies.
    destruct (Py.sort_by_key id_number l) as [sorted|] eqn:E; [|discriminate].
    intros [= <-]. simpl. rewrite (sort_by_key_again _ _ _ E). reflexivity.
  - intros ids ids'. unfold Simple.save_to_json. simpl.
    destruct (Py.sort_by_key id_number l) as [sorted|] eqn:E; [|discriminate].
    intros [= <-]. simpl. rewrite (sort_by_key_again _ _ _ E). reflexivity.
Qed.

(** The sort is stable. *)

Lemma insert_keyed_filter {A : Type} (k : Z) (kx : Z * A) (l : list (Z * A)) :
  List.filter (fun ky => fst ky =? k) (Py.insert_keyed kx l)
  = List.filter (fun ky => fst ky =? k) (kx :: l).
Proof.
  induction l as [|ky l IH]; [reflexivity|].
  cbn [Py.insert_keyed]. destruct (fst kx <=? fst ky) eqn:E; [reflexivity|].
  apply Z.leb_gt in E. cbn [List.filter] in *. rewrite IH.
  destruct (fst ky =? k) eqn:Ey, (fst kx =? k) eqn:Ex; try reflexivity.
  apply Z.eqb_eq in Ey, Ex. lia.
Qed.

Lemma sort_keyed_filter {A : Type} (k : Z) (l : list (Z * A)) :
  List.filter (fun ky => fst ky =? k) (Py.sort_keyed l)
  = List.filter (fun ky => fst ky =? k) l.
Proof.
  induction l as [|kx l IH]; [reflexivity|].
  cbn [Py.sort_keyed]. rewrite insert_keyed_filter. cbn [List.filter].
  rewrite IH. reflexivity.
Qed.

Lemma has_number_keys (k : Z) (kl : list (Z * policy)) :
  Forall (fun kx => id_number (snd kx) = Some (fst kx)) kl ->
  List.filter (has_number k) (map snd kl)
  = map snd (List.filter (fun ky => fst ky =? k) kl).
Proof.
  induction 1 as [|[a x] kl Hk _ IH]; simpl in *; [reflexivity|].
  unfold has_number at 1. rewrite Hk.
  destruct (a =? k); simpl; rewrite IH; reflexivity.
Qed.

Lemma sort_by_key_stable (k : Z) (l sorted : list policy) :
  Py.sort_by_key id_number l = Some sorted ->
  List.filter (has_number k) sorted = List.filter (has_number k) l.
Proof.
  unfold Py.sort_by_key.
  destruct (Py.keyed id_number l) as [kl|] eqn:E; [|discriminate].
  intros [= <-]. apply keyed_spec in E as [Hl Hkeys].
  rewrite <- Hl. rewrite !has_number_keys.
  - rewrite sort_keyed_filter. reflexivity.
  - exact Hkeys.
  - apply Forall_forall. intros kx Hkx. rewrite Forall_forall in Hkeys.
    apply Hkeys. rewrite <- (sort_keyed_perm kl). exact Hkx.
Qed.

(** X4: the sort of the save steps is stable: the records of a catalog
    whose identifiers read as the same integer are in the order they had
    before the sort, which for the finder is the order of the first
    occurrences in [lcd_urls]. *)
Theorem sort_is_stable (now : string) (l : list policy) (cat : catalog) (k : Z) :
  (Quick.save_lcd_policies now l = Some cat ->
   List.filter (has_number k) (policies cat) = List.filter (has_number k) l) /\
  (forall ids,
     Simple.save_to_json now {| lcd_urls := l; processed_ids := ids |} = Some cat ->
     List.filter (has_number k) (policies cat) = List.filter (has_number k) l) /\
  (Finder.save_to_json now l = Some cat ->
   List.filter (has_number k) (policies cat)
   = List.filter (has_number k) (Finder.unique_loop l [] ∅)).
Proof.
  refine (conj _ (conj _ _)).
  - unfold Quick.save_lcd_policies.
    destruct (Py.sort_by_key id_number l) as [sorted|] eqn:E; [|discriminate].
    intros [= <-]. simpl. exact (sort_by_key_stable k _ _ E).
  - intros ids. unfold Simple.save_to_json. simpl.
    destruct (Py.sort_by_key id_number l) as [sorted|] eqn:E; [|discriminate].
    intros [= <-]. simpl. exact (sort_by_key_stable k _ _ E).
  - unfold Finder.save_to_json.
    destruct (Py.sort_by_key id_number (Finder.unique_loop l [] ∅)) as [sorted|] eqn:E;
      [|discriminate].
    intros [= <-]. simpl. exact (sort_by_key_stable k _ _ E).
Qed.

(** X5: a save step fails, with the [ValueError] of [int] and before
    anything is written, exactly when the identifier of some record does
    not read as an integer; a record dropped by the merge as a duplicate
    makes no difference, since it has the identifier of a record kept. *)
Theorem save_fails_on_bad_identifier (now : string) (l : list policy) :
  (Quick.save_lcd_policies now l = None <-> Exists (fun p => id_number p = None) l) /\
  (forall ids,
     Simple.save_to_json now {| lcd_urls := l; processed_ids := ids |} = None
     <-> Exists (fun p => id_number p = None) l) /\
  (Finder.save_to_json now l = None <-> Exists (fun p => id_number p = None) l).
Proof.
  refine (conj _ (conj _ _)).
  - rewrite <- sort_by_key_none. unfold Quick.save_lcd_policies.
    destruct (Py.sort_by_key id_number l); split; intros H; congruence.
  - intros ids. rewrite <- sort_by_key_none. unfold Simple.save_to_json. simpl.
    destruct (Py.sort_by_key id_number l); split; intros H; congruence.
  - transitivity (Exists (fun p => id_number p = None) (Finder.unique_loop l [] ∅)).
    + rewrite <- sort_by_key_none. unfold Finder.save_to_json.
      destruct (Py.sort_by_key id_number _); split; intros H; congruence.
    + rewrite unique_loop_first_seen. simpl. rewrite !Exists_exists. split.
      * intros (p & Hp & Hbad). exists p. split; [|exact Hbad].
        exact (first_seen_sub _ _ _ Hp).
      * intros (p & Hp & Hbad).
        destruct (first_seen_represents ∅ l p Hp) as [Hin | (q & Hq & Heq)].
        -- exfalso. exact (not_elem_of_empty _ Hin).
        -- exists q. split; [exact Hq|].
           unfold id_number in *. rewrite Heq. exact Hbad.
Qed.

(** X6: the save steps of the quick and of the simple finder keep every
    record: the catalog holds the records given, in some order, and
    [total_policies] is their number. *)
Theorem save_keeps_every_record (now : string) (l : list policy) (cat : catalog) :
  (Quick.save_lcd_policies now l = Some cat ->
   policies cat ≡ₚ l /\ total_policies cat = List.length l) /\
  (forall ids,
     Simple.save_to_json now {| lcd_urls := l; processed_ids := ids |} = Some cat ->
     policies cat ≡ₚ l /\ total_policies cat = List.length l).
Proof.
  split; [|intros ids]; unfold Quick.save_lcd_policies, Simple.save_to_json; simpl;
    (destruct (Py.sort_by_key id_number l) as [sorted|] eqn:E; [|discriminate]);
    intros [= <-]; simpl; apply sort_by_key_spec in E as [Hperm _];
    (split; [exact Hperm | rewrite Hperm; reflexivity]).
Qed.

(** ** The records of the quick finder *)

Lemma quick_probe_record (v : page_view) (n : Z) (p : policy) :
  Quick.probe v n = Some p ->
  lcd_id p = Py.str n /\ doc_id p = "L" ++ Py.str n /\ url p = view_url n.
Proof.
  unfold Quick.probe.
  destruct (goto v); [|discriminate].
  destruct (page_title v); [|discriminate].
  destruct (Quick.looks_valid _); [|discriminate].
  intros [= <-]. repeat split.
Qed.

Lemma quick_scan_follows (web : browser) (ids : list Z) :
  forall i,
    map lcd_id (Quick.scan web i ids []) `sublist_of` map Py.str ids /\
    (List.length (Quick.scan web i ids []) <= List.length ids)%nat /\
    Forall (fun p => exists n, n ∈ ids /\ lcd_id p = Py.str n /\
                               doc_id p = "L" ++ Py.str n /\ url p = view_url n)
           (Quick.scan web i ids []).
Proof.
  induction ids as [|id ids IH]; intros i; simpl.
  - split; [constructor | split; [lia | constructor]].
  - destruct (IH (S i)) as (Hsub & Hlen & Hall).
    assert (Forall (fun p => exists n, n ∈ id :: ids /\ lcd_id p = Py.str n /\
                               doc_id p = "L" ++ Py.str n /\ url p = view_url n)
                   (Quick.scan web (S i) ids [])) as Hall'.
    { eapply Forall_impl; [exact Hall|]. intros p (n & Hn & Hp).
      exists n. split; [apply list_elem_of_further, Hn | exact Hp]. }
    destruct (Quick.probe (web i id) id) as [p|] eqn:Hp.
    + rewrite quick_scan_acc. simpl.
      destruct (quick_probe_record _ _ _ Hp) as (Hid & Hdoc & Hurl).
      split; [rewrite Hid; apply sublist_skip, Hsub|].
      split; [lia|]. constructor; [|exact Hall'].
      exists id. split; [apply list_elem_of_here | auto].
    + split; [apply sublist_cons, Hsub|]. split; [lia | exact Hall'].
Qed.

(** X7: whatever the site shows, the quick finder returns at most one
    record for each identifier of [test_ids], in the order of [test_ids];
    each record has the string of its identifier as [lcd_id], "L"
    followed by it as [doc_id] and the address fetched as [url]. *)
Theorem quick_finder_follows_test_ids (web : browser) :
  map lcd_id (Quick.quick_find_lcd_policies web) `sublist_of` map Py.str Quick.test_ids /\
  (List.length (Quick.quick_find_lcd_policies web) <= List.length Quick.test_ids)%nat /\
  Forall (fun p => exists n, n ∈ Quick.test_ids /\ lcd_id p = Py.str n /\
                             doc_id p = "L" ++ Py.str n /\ url p = view_url n)
         (Quick.quick_find_lcd_policies web).
Proof. exact (quick_scan_follows web Quick.test_ids 0). Qed.

(** ** The pattern probe is bounded *)

Lemma try_pattern_step (web : browser) (r : run) (c : nat) (id : Z) :
  ((10 <= c)%nat /\ Finder.try_pattern web (r, c) id = (r, c)) \/
  ((c < 10)%nat /\
   exists r' added,
     Finder.try_pattern web (r, c) id = (r', (c + List.length added)%nat) /\
     fetched r' = (fetched r ++ [id])%list /\
     lcd_urls (state r') = (lcd_urls (state r) ++ added)%list /\
     (List.length added <= 1)%nat).
Proof.
  unfold Finder.try_pattern.
  destruct (10 <=? c)%nat eqn:E.
  - left. apply Nat.leb_le in E. split; [exact E | reflexivity].
  - right. apply Nat.leb_gt in E. split; [exact E|].
    assert (forall r', fetched r' = (fetched r ++ [id])%list ->
                       lcd_urls (state r') = lcd_urls (state r) ->
            exists r'' added,
              (r', c) = (r'', (c + List.length added)%nat) /\
              fetched r'' = (fetched r ++ [id])%list /\
              lcd_urls (state r'') = (lcd_urls (state r) ++ added)%list /\
              (List.length added <= 1)%nat) as Hsame.
    { intros r' Hf Hu. exists r', []. simpl.
      rewrite Nat.add_0_r, app_nil_r. auto. }
    destruct (goto _); [|apply Hsame; reflexivity].
    destruct (page_title _); [|apply Hsame; reflexivity].
    destruct (_ && _); [|apply Hsame; reflexivity].
    destruct (content _); [|apply Hsame; reflexivity].
    destruct (Py.contains _ _); [|apply Hsame; reflexivity].
    destruct (decide _); [apply Hsame; reflexivity|].
    eexists _, [_]. simpl. rewrite Nat.add_1_r.
    split; [reflexivity|]. split; [reflexivity|]. split; [reflexivity | lia].
Qed.

Lemma try_pattern_saturated (web : browser) (ids : list Z) (r : run) (c : nat) :
  (10 <= c)%nat -> fold_left (Finder.try_pattern web) ids (r, c) = (r, c).
Proof.
  intros Hc. induction ids as [|id ids IH]; cbn [fold_left]; [reflexivity|].
  destruct (try_pattern_step web r c id) as [[_ ->] | [Hlt _]]; [exact IH | lia].
Qed.

Lemma try_pattern_fold (web : browser) (ids : list Z) :
  forall (r : run) (c : nat),
    exists new added,
      fetched (fst (fold_left (Finder.try_pattern web) ids (r, c)))
        = (fetched r ++ new)%list /\
      lcd_urls (state (fst (fold_left (Finder.try_pattern web) ids (r, c))))
        = (lcd_urls (state r) ++ added)%list /\
      snd (fold_left (Finder.try_pattern web) ids (r, c)) = (c + List.length added)%nat /\
      new `prefix_of` ids /\
      ((c + List.length added < 10)%nat -> new = ids) /\
      ((c <= 10)%nat -> (c + List.length added <= 10)%nat).
Proof.
  induction ids as [|id ids IH]; intros r c.
  - exists [], []. simpl. rewrite !app_nil_r, Nat.add_0_r.
    repeat split; auto.
  - destruct (try_pattern_step web r c id)
      as [[Hc Hstep] | (Hc & r' & added1 & Hstep & Hf & Hu & Hlen)].
    + exists [], []. rewrite (try_pattern_saturated web (id :: ids) r c Hc). simpl.
      rewrite !app_nil_r, Nat.add_0_r.
      repeat split; auto; [apply prefix_nil | lia].
    + destruct (IH r' (c + List.length added1)%nat)
        as (new & added & Hf' & Hu' & Hc' & Hpre & Hfull & Hmax).
      exists (id :: new), (added1 ++ added)%list. cbn [fold_left].
      rewrite Hstep, Hf', Hu', Hc', Hf, Hu, length_app, <- !app_assoc.
      split; [reflexivity|]. split; [reflexivity|]. split; [lia|].
      split; [apply prefix_cons, Hpre|]. split.
      * intros Hlt. f_equal. apply Hfull. lia.
      * intros _. assert (c + List.length added1 <= 10)%nat as H10 by lia.
        specialize (Hmax H10). lia.
Qed.

Lemma test_lcd_ids_length : List.length Finder.test_lcd_ids = 100%nat.
Proof. vm_compute. reflexivity. Qed.

(** X8: whatever the site shows, one call of [try_known_lcd_patterns]
    appends at most ten records and fetches at most a hundred pages: the
    identifiers fetched are an initial part of [range(30000, 40000, 100)],
    in order, and all of it unless ten records were found. *)
Theorem pattern_probe_bounded (web : browser) (r : run) :
  exists new added,
    fetched (Finder.try_known_lcd_patterns web r) = (fetched r ++ new)%list /\
    lcd_urls (state (Finder.try_known_lcd_patterns web r))
      = (lcd_urls (state r) ++ added)%list /\
    new `prefix_of` Finder.test_lcd_ids /\
    (List.length new <= 100)%nat /\
    (List.length added <= 10)%nat /\
    ((List.length added < 10)%nat -> new = Finder.test_lcd_ids).
Proof.
  destruct (try_pattern_fold web Finder.test_lcd_ids r 0)
    as (new & added & Hf & Hu & _ & Hpre & Hfull & Hmax).
  exists new, added. unfold Finder.try_known_lcd_patterns.
  split; [exact Hf|]. split; [exact Hu|]. split; [exact Hpre|].
  split; [|split].
  - rewrite <- test_lcd_ids_length. apply prefix_length, Hpre.
  - apply (Hmax (Nat.le_0_l 10)).
  - exact Hfull.
Qed.

(** ** The fetches of the systematic search *)

Lemma probe_fetches (web : browser) (r : run) (c : nat) (id : Z) :
  exists new,
    fetched (fst (Simple.probe web (r, c) id)) = (fetched r ++ new)%list /\
    (List.length new <= 1)%nat.
Proof.
  unfold Simple.probe, Simple.visit.
  destruct (decide _).
  - exists []. simpl. rewrite app_nil_r. split; [reflexivity | lia].
  - exists [id]. destruct (Simple.validate_lcd_url _ _); simpl; split; (reflexivity || lia).
Qed.

Lemma scan_fetches (web : browser) (ids : list Z) :
  forall (r : run) (c : nat),
    exists new,
      fetched (fst (fold_left (Simple.probe web) ids (r, c))) = (fetched r ++ new)%list /\
      (List.length new <= List.length ids)%nat.
Proof.
  induction ids as [|id ids IH]; intros r c.
  - exists []. simpl. rewrite app_nil_r. split; [reflexivity | lia].
  - cbn [fold_left]. destruct (probe_fetches web r c id) as (new1 & Hf1 & Hlen1).
    destruct (Simple.probe web (r, c) id) as [r1 c1]. simpl in Hf1.
    destruct (IH r1 c1) as (new & Hf & Hlen).
    exists (new1 ++ new)%list. rewrite Hf, Hf1, length_app, <- app_assoc.
    split; [reflexivity | simpl; lia].
Qed.

Lemma search_range_fetches (web : browser) (r : run) (rng : Z * Z * Z) :
  exists new,
    fetched (Simple.search_range web r rng) = (fetched r ++ new)%list /\
    (List.length new <= range_budget rng)%nat.
Proof.
  destruct rng as [[start stop] step]. unfold Simple.search_range, Simple.scan_ids.
  cbn [range_budget].
  destruct (scan_fetches web (Py.range start stop step) r 0) as (new1 & Hf1 & Hlen1).
  destruct (fold_left (Simple.probe web) (Py.range start stop step) (r, 0%nat))
    as [r1 found]. simpl in Hf1.
  destruct (5 <? found)%nat.
  - destruct (scan_fetches web (Py.range start stop 10) r1 0) as (new2 & Hf2 & Hlen2).
    exists (new1 ++ new2)%list. rewrite Hf2, Hf1, length_app, <- app_assoc.
    split; [reflexivity | apply Nat.add_le_mono; assumption].
  - exists new1. split; [exact Hf1|].
    etransitivity; [exact Hlen1 | apply Nat.le_add_r].
Qed.

Lemma search_ranges_fetches (web : browser) (rngs : list (Z * Z * Z)) :
  forall r : run,
    exists new,
      fetched (fold_left (Simple.search_range web) rngs r) = (fetched r ++ new)%list /\
      (List.length new <= list_sum (map range_budget rngs))%nat.
Proof.
  induction rngs as [|rng rngs IH]; intros r.
  - exists []. simpl. rewrite app_nil_r. split; [reflexivity | lia].
  - cbn [fold_left map list_sum].
    destruct (search_range_fetches web r rng) as (new1 & Hf1 & Hlen1).
    destruct (IH (Simple.search_range web r rng)) as (new & Hf & Hlen).
    exists (new1 ++ new)%list. rewrite Hf, Hf1, length_app, <- app_assoc.
    split; [reflexivity | apply Nat.add_le_mono; assumption].
Qed.

Lemma validate_known_fetches (web : browser) (ids : list Z) :
  forall r : run,
    fetched (fold_left (Simple.validate_known web) ids r) = (fetched r ++ ids)%list.
Proof.
  induction ids as [|id ids IH]; intros r; simpl.
  - rewrite app_nil_r. reflexivity.
  - rewrite IH. unfold Simple.validate_known, Simple.visit.
    destruct (Simple.validate_lcd_url _ _); [destruct (decide _)|];
      simpl; rewrite <- app_assoc; reflexivity.
Qed.

Lemma search_ranges_budget :
  list_sum (map range_budget Simple.search_ranges) = 1315%nat.
Proof. vm_compute. reflexivity. Qed.

(** X9: whatever the site shows, the systematic search first fetches the
    six known identifiers, in order and whether or not they were
    processed before, and then at most 1315 candidates of the ranges: 115
    of the coarse passes and 1200 of the dense passes. *)
Theorem systematic_fetches_bounded (web : browser) (r : run) :
  exists new,
    fetched (Simple.find_lcd_policies_systematically web r)
      = (fetched r ++ Simple.known_working_ids ++ new)%list /\
    (List.length new <= 1315)%nat.
Proof.
  unfold Simple.find_lcd_policies_systematically.
  destruct (search_ranges_fetches web Simple.search_ranges
              (fold_left (Simple.validate_known web) Simple.known_working_ids r))
    as (new & Hf & Hlen).
  exists new. rewrite Hf, validate_known_fetches, <- app_assoc.
  split; [reflexivity|]. rewrite <- search_ranges_budget. exact Hlen.
Qed.

(** ** Discovery only appends *)

Lemma extends_refl (s : finder) : extends s s.
Proof. split; reflexivity. Qed.

Lemma extends_append (s0 : finder) (p : policy) (id : string) (s : finder) :
  extends s0 s -> extends s0 (append_policy p id s).
Proof.
  intros [Hpre Hsub]. split; simpl.
  - etransitivity; [exact Hpre|]. apply prefix_app_r. reflexivity.
  - etransitivity; [exact Hsub|]. apply union_subseteq_l.
Qed.

Section ListingInvariant.

Variable P : finder -> Prop.

Hypothesis P_append : forall (p : policy) (s : finder),
  P s -> lcd_id p ∉ processed_ids s -> is_Some (id_number p) ->
  P (append_policy p (lcd_id p) s).

Lemma search_lcd_policies_keeps (opened : outcome Finder.listing) (s : finder) :
  P s -> P (Finder.search_lcd_policies opened s).
Proof.
  intros Hs. unfold Finder.search_lcd_policies.
  destruct opened; [|exact Hs]. apply (extract_lcd_links_keeps P P_append), Hs.
Qed.

Lemma try_direct_lcd_listings_keeps (open : string -> outcome Finder.listing)
  (s : finder) :
  P s -> P (Finder.try_direct_lcd_listings open s).
Proof.
  intros Hs. unfold Finder.try_direct_lcd_listings.
  apply fold_left_preserves; [|exact Hs].
  intros s' u Hs'. destruct (open u); [|exact Hs'].
  apply (extract_lcd_links_keeps P P_append), Hs'.
Qed.

End ListingInvariant.

(** X10: no discovery operation removes, changes or reorders what a finder
    already holds: after each of them [lcd_urls] is the former list
    followed by the records added, and [processed_ids] includes the
    former set. *)
Theorem discovery_only_appends (r : run) :
  (forall pg, extends (state r) (Finder.extract_lcd_links pg (state r))) /\
  (forall pages fuel s' log,
      Finder.extract_all_lcd_results pages fuel (state r) = Some (s', log) ->
      extends (state r) s') /\
  (forall opened, extends (state r) (Finder.search_lcd_policies opened (state r))) /\
  (forall open, extends (state r) (Finder.search_via_reports open (state r))) /\
  (forall k, extends (state r) (Finder.search_via_keyword k (state r))) /\
  (forall open, extends (state r) (Finder.try_direct_lcd_listings open (state r))) /\
  (forall web, extends (state r) (state (Finder.try_known_lcd_patterns web r))) /\
  (forall open k web,
      extends (state r) (state (Finder.comprehensive_search open k web r))) /\
  (forall web, extends (state r) (state (Simple.find_lcd_policies_systematically web r))).
Proof.
  assert (forall (p : policy) (s : finder),
            extends (state r) s -> lcd_id p ∉ processed_ids s ->
            is_Some (id_number p) -> extends (state r) (append_policy p (lcd_id p) s))
    as HP by (intros p s Hs _ _; apply extends_append, Hs).
  assert (forall (p : policy) (n : Z) (s : finder),
            extends (state r) s -> lcd_id p = Py.str n ->
            Py.str n ∉ processed_ids s -> extends (state r) (append_policy p (Py.str n) s))
    as HPn by (intros p n s Hs _ _; apply extends_append, Hs).
  pose proof (extends_refl (state r)) as H0.
  refine (conj _ (conj _ (conj _ (conj _ (conj _ (conj _ (conj _ (conj _ _)))))))).
  - intros pg. apply (extract_lcd_links_keeps _ HP), H0.
  - intros pages fuel s' log Hrun.
    exact (paginate_keeps _ HP pages fuel _ _ _ _ _ H0 Hrun).
  - intros opened. apply (search_lcd_policies_keeps _ HP), H0.
  - intros open. apply (search_via_reports_keeps _ HP), H0.
  - intros k. apply (search_via_keyword_keeps _ HP), H0.
  - intros open. apply (try_direct_lcd_listings_keeps _ HP), H0.
  - intros web. apply (try_known_keeps _ HPn), H0.
  - intros open k web. apply (comprehensive_search_keeps _ HP), H0.
  - intros web. apply (systematic_keeps _ HPn), H0.
Qed.




(** ** The address of a record reads back as its identifier *)

Lemma digits_prefix_uint (d : Decimal.uint) :
  Py.digits_prefix (NilEmpty.string_of_uint d) = NilEmpty.string_of_uint d.
Proof.
  induction d as [|d IH|d IH|d IH|d IH|d IH|d IH|d IH|d IH|d IH|d IH];
    [reflexivity|..];
    cbn [NilEmpty.string_of_uint Py.digits_prefix];
    change (Py.is_digit _) with true; cbv iota; rewrite IH; reflexivity.
Qed.

Lemma str_nonneg (n : Z) :
  0 <= n -> exists d, d <> Decimal.Nil /\ Py.str n = NilEmpty.string_of_uint d.
Proof.
  intros Hn. unfold Py.str. destruct n as [|p|p]; [| |lia].
  - exists (Decimal.D0 Decimal.Nil). split; [discriminate | reflexivity].
  - exists (Pos.to_uint p).
    pose proof (DecimalPos.Unsigned.to_uint_nonnil p) as Hnil. split; [exact Hnil|].
    cbn [Z.to_int NilZero.string_of_int]. unfold NilZero.string_of_uint.
    destruct (Pos.to_uint p); [contradiction|..]; reflexivity.
Qed.

Lemma str_digits (n : Z) :
  0 <= n -> Py.digits_prefix (Py.str n) = Py.str n /\ Py.str n <> "".
Proof.
  intros Hn. destruct (str_nonneg n Hn) as (d & Hd & ->).
  split; [apply digits_prefix_uint|]. destruct d; try discriminate. contradiction.
Qed.

Lemma re_search_cons (lit glit : string) (c : ascii) (s : string) :
  Py.match_here lit glit (String c s) = None ->
  Py.re_search lit glit (String c s) = Py.re_search lit glit s.
Proof. intros H. cbn [Py.re_search]. rewrite H. reflexivity. Qed.

Lemma re_search_hit (lit glit s g : string) :
  Py.match_here lit glit s = Some g -> Py.re_search lit glit s = Some g.
Proof. intros H. destruct s; cbn [Py.re_search]; rewrite H; reflexivity. Qed.

Lemma append_empty (s : string) : s ++ "" = s.
Proof.
  induction s as [|c s IH]; [reflexivity|].
  change (String c (s ++ "") = String c s). rewrite IH. reflexivity.
Qed.

Lemma prefix_append (lit s : string) : String.prefix lit (lit ++ s) = true.
Proof.
  induction lit as [|c lit IH]; [destruct s; reflexivity|].
  change (String c lit ++ s) with (String c (lit ++ s)). cbn [String.prefix].
  destruct (ascii_dec c c) as [_|Hc]; [exact IH | contradiction].
Qed.

Lemma skip_append (lit s : string) : Py.skip (String.length lit) (lit ++ s) = s.
Proof.
  induction lit as [|c lit IH]; [reflexivity|].
  change (String c lit ++ s) with (String c (lit ++ s)). exact IH.
Qed.

Lemma match_here_append (lit s : string) :
  Py.match_here lit "" (lit ++ s)
  = match Py.digits_prefix s with
    | EmptyString => None
    | ds => Some ds
    end.
Proof.
  unfold Py.match_here. rewrite append_empty, prefix_append, skip_append.
  destruct (Py.digits_prefix s); reflexivity.
Qed.

Lemma view_url_reads_back (s : string) :
  Py.digits_prefix s = s -> s <> "" ->
  Py.re_search "LCDId=" ""
    ("https://www.cms.gov/medicare-coverage-database/view/lcd.aspx?LCDId=" ++ s)
  = Some s.
Proof.
  intros Hd Hne. cbv [String.append].
  repeat (rewrite re_search_cons by reflexivity).
  apply re_search_hit.
  change (Py.match_here "LCDId=" "" ("LCDId=" ++ s) = Some s).
  rewrite match_here_append, Hd. destruct s; [contradiction | reflexivity].
Qed.

Lemma contains_append (pre x s : string) : Py.contains x (pre ++ (x ++ s)) = true.
Proof.
  induction pre as [|c pre IH].
  - change ("" ++ (x ++ s)) with (x ++ s).
    pose proof (prefix_append x s) as H.
    destruct (x ++ s); cbn [Py.contains]; rewrite H; reflexivity.
  - change (String c pre ++ (x ++ s)) with (String c (pre ++ (x ++ s))).
    cbn [Py.contains]. rewrite IH. apply orb_true_r.
Qed.

Lemma view_url_is_lcd_href (n : Z) :
  Finder.is_lcd_href (view_url n) = true /\ Py.startswith (view_url n) "http" = true.
Proof.
  split.
  - unfold Finder.is_lcd_href. apply andb_true_iff. split.
    + exact (contains_append "https://www.cms.gov/medicare-coverage-database/view/"
               "lcd.aspx" ("?LCDId=" ++ Py.str n)).
    + exact (contains_append
               "https://www.cms.gov/medicare-coverage-database/view/lcd.aspx?"
               "LCDId=" (Py.str n)).
  - exact (prefix_append "http"
             ("s://www.cms.gov/medicare-coverage-database/view/lcd.aspx?LCDId="
              ++ Py.str n)).
Qed.

(** X12: the address written into a record by the scans over candidate
    numbers and by the manual list agrees with its identifier: it is an
    LCD address from which the pattern [LCDId=(\d+)] of the link
    extractors reads the [lcd_id] of the record, and the identifier reads
    as the candidate number.  A result link with that address makes the
    finder append a record with the same identifier and address. *)
Theorem record_url_reads_back (v : page_view) (n : Z) (p : policy) :
  0 <= n ->
  Simple.validate_lcd_url v n = Some p \/ Quick.probe v n = Some p \/
  (exists category now, p = Manual.info (Manual.estimated category n now)) ->
  id_number p = Some n /\
  Finder.is_lcd_href (url p) = true /\
  Py.re_search "LCDId=" "" (url p) = Some (lcd_id p) /\
  (forall (s : finder) (l : Finder.link),
     Finder.href l = Some (url p) -> lcd_id p ∉ processed_ids s ->
     exists q, Finder.add_result s l = append_policy q (lcd_id p) s /\
               lcd_id q = lcd_id p /\ url q = url p).
Proof.
  intros Hn Hp.
  assert (lcd_id p = Py.str n /\ url p = view_url n) as [Hid Hurl].
  { destruct Hp as [Hp | [Hp | (category & now & ->)]].
    - split; [exact (validate_lcd_id _ _ _ Hp)|].
      unfold Simple.validate_lcd_url in Hp.
      destruct (goto v); [|discriminate]. destruct (content v); [|discriminate].
      destruct (page_title v); [|discriminate].
      destruct (Simple.looks_valid _ _); [|discriminate].
      injection Hp as <-. reflexivity.
    - destruct (quick_probe_record _ _ _ Hp) as (H1 & _ & H2). split; assumption.
    - split; reflexivity. }
  destruct (str_digits n Hn) as [Hd Hne].
  destruct (view_url_is_lcd_href n) as [Hhref Hhttp].
  assert (Py.re_search "LCDId=" "" (url p) = Some (lcd_id p)) as Hre.
  { rewrite Hurl, Hid. exact (view_url_reads_back (Py.str n) Hd Hne). }
  assert (Finder.is_lcd_href (url p) = true) as Hhref' by (rewrite Hurl; exact Hhref).
  split; [unfold id_number; rewrite Hid; apply int_str|].
  split; [exact Hhref'|]. split; [exact Hre|].
  intros s l Hl Hnew. unfold Finder.add_result. rewrite Hl. cbv beta iota.
  rewrite Hhref', Hre.
  destruct (decide (lcd_id p ∈ processed_ids s)) as [Hin|_]; [contradiction|].
  eexists. split; [reflexivity|]. split; [reflexivity|].
  simpl. unfold Finder.full_url. rewrite Hurl, Hhttp. reflexivity.
Qed.

Lemma record_url_reads_back_witness :
  id_number (record_of "33822" "L33822" "LCD") = Some 33822.
Proof.
  apply (record_url_reads_back (page_of "LCD" "") 33822 (record_of "33822" "L33822" "LCD")).
  - lia.
  - left. vm_compute. reflexivity.
Defined.

(** ** More on the sample *)

Lemma sample_formula (sample_size : Z) (all : list policy) :
  0 <= sample_size ->
  Bulk.sample sample_size all
  = (firstn (Z.to_nat sample_size) (List.filter (fun p => negb (Bulk.is_estimated p)) all)
     ++ firstn (Z.to_nat sample_size
                - List.length (List.filter (fun p => negb (Bulk.is_estimated p)) all))
               (List.filter Bulk.is_estimated all))%list.
Proof.
  intros Hn. unfold Bulk.sample, Py.slice_to.
  set (validated := List.filter (fun p => negb (Bulk.is_estimated p)) all).
  set (estimated := List.filter Bulk.is_estimated all).
  rewrite (proj2 (Z.leb_le 0 sample_size) Hn), length_firstn.
  destruct (Z.of_nat (Nat.min (Z.to_nat sample_size) (List.length validated))
            <? sample_size) eqn:E.
  - apply Z.ltb_lt in E.
    rewrite (proj2 (Z.leb_le 0 _)) by lia. do 2 f_equal. lia.
  - apply Z.ltb_ge in E.
    replace (Z.to_nat sample_size - List.length validated)%nat with O by lia.
    simpl. rewrite app_nil_r. reflexivity.
Qed.

Lemma filter_split_length {A : Type} (f : A -> bool) (l : list A) :
  (List.length (List.filter (fun x => negb (f x)) l) + List.length (List.filter f l))%nat
  = List.length l.
Proof.
  induction l as [|x l IH]; simpl; [reflexivity|].
  destruct (f x); simpl; lia.
Qed.

Lemma filter_split_perm {A : Type} (f : A -> bool) (l : list A) :
  (List.filter (fun x => negb (f x)) l ++ List.filter f l)%list ≡ₚ l.
Proof.
  induction l as [|x l IH]; simpl; [reflexivity|].
  destruct (f x); simpl.
  - rewrite <- Permutation_middle. constructor. exact IH.
  - constructor. exact IH.
Qed.

(** X13: a sample size that is at least the number of policies of the
    file selects every policy, each once: those not marked estimated, in
    their order, followed by the estimated ones, in theirs. *)
Theorem large_sample_selects_all (sample_size : Z) (all : list policy) :
  Z.of_nat (List.length all) <= sample_size ->
  Bulk.load_policy_urls true sample_size (Bulk.Loaded all)
  = (List.filter (fun p => negb (Bulk.is_estimated p)) all
     ++ List.filter Bulk.is_estimated all)%list /\
  Bulk.load_policy_urls true sample_size (Bulk.Loaded all) ≡ₚ all.
Proof.
  intros Hn.
  assert (Bulk.load_policy_urls true sample_size (Bulk.Loaded all)
          = (List.filter (fun p => negb (Bulk.is_estimated p)) all
             ++ List.filter Bulk.is_estimated all)%list) as ->.
  { cbn [Bulk.load_policy_urls]. rewrite sample_formula by lia.
    pose proof (filter_split_length Bulk.is_estimated all) as Hlen.
    rewrite !take_ge by lia. reflexivity. }
  split; [reflexivity | apply filter_split_perm].
Qed.

Lemma large_sample_selects_all_witness :
  Bulk.load_policy_urls true 5 (Bulk.Loaded [estimated_33800; seeded_33822])
  = [seeded_33822; estimated_33800].
Proof.
  apply (large_sample_selects_all 5 [estimated_33800; seeded_33822]).
  simpl. lia.
Defined.

(** X14: a negative sample size, which the command line accepts, selects
    the policies not marked estimated without the last [-sample_size] of
    them, and never an estimated one. *)
Theorem negative_sample_drops_tail (sample_size : Z) (all : list policy) :
  sample_size < 0 ->
  let validated := List.filter (fun p => negb (Bulk.is_estimated p)) all in
  Bulk.load_policy_urls true sample_size (Bulk.Loaded all)
  = firstn (List.length validated - Z.to_nat (- sample_size)) validated /\
  Forall (fun p => Bulk.is_estimated p = false)
         (Bulk.load_policy_urls true sample_size (Bulk.Loaded all)).
Proof.
  intros Hn validated.
  assert (Bulk.load_policy_urls true sample_size (Bulk.Loaded all)
          = firstn (List.length validated - Z.to_nat (- sample_size)) validated) as ->.
  { cbn [Bulk.load_policy_urls]. unfold Bulk.sample, Py.slice_to. fold validated.
    rewrite (proj2 (Z.leb_gt 0 sample_size) Hn).
    rewrite (proj2 (Z.ltb_ge _ _)) by lia. reflexivity. }
  split; [reflexivity|]. apply Forall_forall. intros p Hp.
  apply subseteq_take, list_elem_of_In, filter_In in Hp as [_ Hp].
  apply negb_true_iff, Hp.
Qed.

Lemma negative_sample_drops_tail_witness :
  Bulk.load_policy_urls true (-1) (Bulk.Loaded [seeded_33822; estimated_33800; probed_35000])
  = [seeded_33822].
Proof.
  apply (negative_sample_drops_tail (-1) [seeded_33822; estimated_33800; probed_35000]).
  lia.
Defined.

(** ** The manual list and its sample *)

Lemma stamp_forall {A : Type} (P : A -> Prop) (clock : nat -> string)
  (l : list (string -> A)) :
  Forall (fun f => forall now, P (f now)) l -> forall k, Forall P (Manual.stamp clock k l).
Proof.
  induction 1 as [|f l Hf _ IH]; intros k; simpl; constructor; [apply Hf | apply IH].
Qed.

Lemma stamp_length {A : Type} (clock : nat -> string) (l : list (string -> A)) :
  forall k, List.length (Manual.stamp clock k l) = List.length l.
Proof. induction l as [|f l IH]; intros k; simpl; [reflexivity | rewrite IH; reflexivity]. Qed.

Lemma known_policies_validated (clock : nat -> string) :
  Forall (fun e => Bulk.is_estimated (Manual.info e) = false)
         (Manual.create_lcd_policy_list clock).
Proof.
  apply stamp_forall. unfold Manual.known_policies.
  repeat (constructor; [intros now; reflexivity|]). constructor.
Qed.

Lemma estimate_all_estimated (clock : nat -> string) (table : list (string * list Z)) :
  Forall (fun e => Bulk.is_estimated (Manual.info e) = true)
         (Manual.estimate_all clock table).
Proof.
  apply stamp_forall. apply Forall_forall. intros f Hf now.
  apply list_elem_of_In, in_flat_map in Hf as ([category ids] & _ & Hf).
  apply in_map_iff in Hf as (n & <- & _). reflexivity.
Qed.

Lemma filter_all {A : Type} (f : A -> bool) (l : list A) :
  Forall (fun x => f x = true) l -> List.filter f l = l.
Proof. induction 1 as [|x l Hx _ IH]; simpl; [|rewrite Hx, IH]; reflexivity. Qed.

Lemma filter_none {A : Type} (f : A -> bool) (l : list A) :
  Forall (fun x => f x = false) l -> List.filter f l = [].
Proof. induction 1 as [|x l Hx _ IH]; simpl; [|rewrite Hx, IH]; reflexivity. Qed.

Lemma sample_of_partitioned (sample_size : Z) (v e : list policy) :
  0 <= sample_size ->
  Forall (fun p => Bulk.is_estimated p = false) v ->
  Forall (fun p => Bulk.is_estimated p = true) e ->
  Bulk.sample sample_size (v ++ e) = firstn (Z.to_nat sample_size) (v ++ e).
Proof.
  intros Hn Hv He. rewrite sample_formula by exact Hn.
  rewrite !List.filter_app.
  rewrite (filter_all (fun p => negb (Bulk.is_estimated p)) v),
          (filter_none (fun p => negb (Bulk.is_estimated p)) e),
          (filter_none Bulk.is_estimated v), (filter_all Bulk.is_estimated e).
  - rewrite app_nil_r. simpl. symmetry. apply firstn_app.
  - exact He.
  - exact Hv.
  - eapply Forall_impl; [exact He|]. intros p Hp. simpl. rewrite Hp. reflexivity.
  - eapply Forall_impl; [exact Hv|]. intros p Hp. simpl. rewrite Hp. reflexivity.
Qed.

(** X15: the file written by the manual list holds the known policies,
    none marked estimated, followed by the policies of the category
    table, all marked estimated, and its counts add up.  So the sample
    the bulk downloader takes of that file is the beginning of the file:
    its first [sample_size] policies. *)
Theorem manual_sample_is_prefix (clock : nat -> string) (sample_size : Z) :
  0 <= sample_size ->
  let out := Manual.save_comprehensive_lcd_list clock in
  Bulk.load_policy_urls true sample_size (Manual.written_file out)
  = firstn (Z.to_nat sample_size) (map Manual.info (Manual.policies out)) /\
  Manual.total_policies out
  = (Manual.validated_policies out + Manual.estimated_policies out)%nat /\
  Manual.validated_policies out = List.length Manual.known_policies /\
  List.filter Bulk.is_estimated (map Manual.info (Manual.policies out))
  = skipn (Manual.validated_policies out) (map Manual.info (Manual.policies out)).
Proof.
  intros Hn out.
  set (known := Manual.create_lcd_policy_list clock).
  set (additional :=
         Manual.add_additional_lcd_patterns
           (fun k => clock (List.length known + k)%nat)).
  assert (Manual.policies out = (known ++ additional)%list) as Hpol by reflexivity.
  assert (Forall (fun p => Bulk.is_estimated p = false) (map Manual.info known)) as Hv.
  { apply Forall_map. apply known_policies_validated. }
  assert (Forall (fun p => Bulk.is_estimated p = true) (map Manual.info additional)) as He.
  { apply Forall_map. apply estimate_all_estimated. }
  assert (Manual.validated_policies out = List.length known) as Hcount by reflexivity.
  split; [|split; [|split]].
  - unfold Manual.written_file. cbn [Bulk.load_policy_urls].
    rewrite Hpol, map_app. apply sample_of_partitioned; assumption.
  - change (List.length (known ++ additional)
            = (List.length known + List.length additional)%nat).
    apply length_app.
  - rewrite Hcount. apply stamp_length.
  - rewrite Hcount, Hpol, map_app, List.filter_app.
    rewrite (filter_none _ _ Hv), (filter_all _ _ He).
    rewrite <- (length_map Manual.info known), drop_app_length. reflexivity.
Qed.

Lemma manual_sample_is_prefix_witness :
  Bulk.load_policy_urls true 10
    (Manual.written_file (Manual.save_comprehensive_lcd_list noon))
  = firstn (Z.to_nat 10)
      (map Manual.info (Manual.policies (Manual.save_comprehensive_lcd_list noon))).
Proof.
  apply (manual_sample_is_prefix noon 10). lia.
Defined.

(** ** The bulk download *)

Lemma append_inv_head (s a b : string) : s ++ a = s ++ b -> a = b.
Proof.
  induction s as [|c s IH]; intros H; [exact H|].
  change (String c (s ++ a) = String c (s ++ b)) in H. injection H as H. exact (IH H).
Qed.

Lemma append_length (a b : string) :
  String.length (a ++ b) = (String.length a + String.length b)%nat.
Proof.
  induction a as [|c a IH]; [reflexivity|].
  change (S (String.length (a ++ b)) = S (String.length a + String.length b)).
  rewrite IH. reflexivity.
Qed.

Lemma append_inv_tail (t : string) :
  forall a b : string, a ++ t = b ++ t -> a = b.
Proof.
  induction a as [|c a IH]; intros [|d b] H.
  - reflexivity.
  - apply (f_equal String.length) in H. rewrite !append_length in H.
    cbn [String.length] in H. lia.
  - apply (f_equal String.length) in H. rewrite !append_length in H.
    cbn [String.length] in H. lia.
  - change (String c (a ++ t) = String d (b ++ t)) in H. injection H as -> H.
    rewrite (IH b H). reflexivity.
Qed.

Lemma pdf_filename_inj (p q : policy) :
  Bulk.pdf_filename p = Bulk.pdf_filename q <-> lcd_id p = lcd_id q.
Proof.
  unfold Bulk.pdf_filename. split; [|intros ->; reflexivity].
  intros H. apply append_inv_head in H. exact (append_inv_tail _ _ _ H).
Qed.

(** One download: the policy is skipped, downloaded or counted as
    failed. *)
Lemma download_policy_pdf_cases (v : Bulk.download_view) (p : policy) (s : Bulk.session) :
  let b := fst (Bulk.download_policy_pdf v p s) in
  let s' := snd (Bulk.download_policy_pdf v p s) in
  (Bulk.pdf_filename p ∈ Bulk.disk s /\ b = true /\ s' = s) \/
  ((Bulk.pdf_filename p ∉ Bulk.disk s) /\
   Bulk.visited s' = (Bulk.visited s ++ [url p])%list /\
   Bulk.disk s ⊆ Bulk.disk s' /\
   Bulk.disk s' ⊆ Bulk.disk s ∪ {[ Bulk.pdf_filename p ]} /\
   ((b = true /\
     Bulk.pdf_filename p ∈ Bulk.disk s' /\
     Bulk.downloaded_count (Bulk.counters s') = S (Bulk.downloaded_count (Bulk.counters s)) /\
     Bulk.failed_count (Bulk.counters s') = Bulk.failed_count (Bulk.counters s) /\
     Bulk.failed_policies (Bulk.counters s') = Bulk.failed_policies (Bulk.counters s)) \/
    (b = false /\
     Bulk.downloaded_count (Bulk.counters s') = Bulk.downloaded_count (Bulk.counters s) /\
     Bulk.failed_count (Bulk.counters s') = S (Bulk.failed_count (Bulk.counters s)) /\
     exists error,
       Bulk.failed_policies (Bulk.counters s')
       = (Bulk.failed_policies (Bulk.counters s) ++ [(p, error)])%list))).
Proof.
  unfold Bulk.download_policy_pdf.
  destruct (decide (Bulk.pdf_filename p ∈ Bulk.disk s)) as [Hin|Hout]; simpl.
  - left. auto.
  - right. split; [exact Hout|].
    destruct (Bulk.arrive v); simpl.
    + destruct (Bulk.pdf v), (Bulk.written v); simpl;
        (split; [reflexivity|]); (split; [set_solver|]); (split; [set_solver|]);
        first [ left; repeat split; set_solver
              | right; repeat split; eexists; reflexivity ].
    + split; [reflexivity|]. split; [set_solver|]. split; [set_solver|].
      right. repeat split. eexists. reflexivity.
Qed.


Ltac download_step web i p s s1 HC :=
  set (s1 := snd (Bulk.download_policy_pdf (web i) p s)) in *;
  pose proof (download_policy_pdf_cases (web i) p s) as HC;
  cbv zeta in HC; fold s1 in HC; clearbody s1.

Lemma download_loop_cons (web : nat -> Bulk.download_view) (i : nat) (p : policy)
  (rest : list policy) (s : Bulk.session) :
  Bulk.download_loop web i (p :: rest) s
  = match Bulk.pause (web i) with
    | Raises => snd (Bulk.download_policy_pdf (web i) p s)
    | Returns _ =>
        Bulk.download_loop web (S i) rest (snd (Bulk.download_policy_pdf (web i) p s))
    end.
Proof. reflexivity. Qed.

Lemma download_all_policies_loop (sample_only : bool) (sample_size : Z)
  (file : Bulk.all_urls_json) (web : nat -> Bulk.download_view) (s : Bulk.session) :
  Bulk.download_all_policies sample_only sample_size file web s
  = Bulk.download_loop web 0 (Bulk.load_policy_urls sample_only sample_size file) s.
Proof.
  unfold Bulk.download_all_policies.
  destruct (Bulk.load_policy_urls sample_only sample_size file); reflexivity.
Qed.

Lemma download_loop_counts (web : nat -> Bulk.download_view) (policies : list policy) :
  forall (i : nat) (s : Bulk.session),
    let s' := Bulk.download_loop web i policies s in
    (Bulk.downloaded_count (Bulk.counters s') + Bulk.failed_count (Bulk.counters s')
     + List.length (Bulk.visited s)
     = Bulk.downloaded_count (Bulk.counters s) + Bulk.failed_count (Bulk.counters s)
       + List.length (Bulk.visited s'))%nat /\
    (Bulk.failed_count (Bulk.counters s') + List.length (Bulk.failed_policies (Bulk.counters s))
     = Bulk.failed_count (Bulk.counters s)
       + List.length (Bulk.failed_policies (Bulk.counters s')))%nat /\
    (List.length (Bulk.visited s') <= List.length (Bulk.visited s) + List.length policies)%nat /\
    Bulk.visited s `prefix_of` Bulk.visited s' /\
    Bulk.disk s ⊆ Bulk.disk s' /\
    (Bulk.downloaded_count (Bulk.counters s) <= Bulk.downloaded_count (Bulk.counters s'))%nat /\
    (Bulk.failed_count (Bulk.counters s) <= Bulk.failed_count (Bulk.counters s'))%nat.
Proof.
  induction policies as [|p rest IH]; intros i s.
  - simpl. repeat split; try lia; reflexivity.
  - intros s'. subst s'. rewrite download_loop_cons.
    download_step web i p s s1 HC.
    assert ((Bulk.downloaded_count (Bulk.counters s1) + Bulk.failed_count (Bulk.counters s1)
             + List.length (Bulk.visited s)
             = Bulk.downloaded_count (Bulk.counters s) + Bulk.failed_count (Bulk.counters s)
               + List.length (Bulk.visited s1))%nat /\
            (Bulk.failed_count (Bulk.counters s1)
             + List.length (Bulk.failed_policies (Bulk.counters s))
             = Bulk.failed_count (Bulk.counters s)
               + List.length (Bulk.failed_policies (Bulk.counters s1)))%nat /\
            (List.length (Bulk.visited s1) <= List.length (Bulk.visited s) + 1)%nat /\
            Bulk.visited s `prefix_of` Bulk.visited s1 /\
            Bulk.disk s ⊆ Bulk.disk s1 /\
            (Bulk.downloaded_count (Bulk.counters s)
             <= Bulk.downloaded_count (Bulk.counters s1))%nat /\
            (Bulk.failed_count (Bulk.counters s) <= Bulk.failed_count (Bulk.counters s1))%nat)
      as (H1 & H2 & H3 & H4 & H5 & H6 & H7).
    { destruct HC as [(Hin & Hb & Hs) | (Hout & Hv & Hsub & Hsup & [Hok | Hfail])].
      - rewrite Hs. repeat split; try lia; reflexivity.
      - destruct Hok as (_ & _ & Hd & Hf & Hfp).
        rewrite Hv, Hd, Hf, Hfp, length_app. simpl.
        repeat split; try lia; [apply prefix_app_r; reflexivity | exact Hsub].
      - destruct Hfail as (_ & Hd & Hf & error & Hfp).
        rewrite Hv, Hd, Hf, Hfp, !length_app. simpl.
        repeat split; try lia; [apply prefix_app_r; reflexivity | exact Hsub]. }
    destruct (Bulk.pause (web i)).
    + destruct (IH (S i) s1) as (G1 & G2 & G3 & G4 & G5 & G6 & G7).
      cbn [List.length].
      repeat split; try lia; etransitivity; eassumption.
    + cbn [List.length]. repeat split; try lia; assumption.
Qed.


(** The downloads counted are of files that were missing. *)

Lemma targets_cons (p : policy) (l : list policy) :
  targets (p :: l) = {[ Bulk.pdf_filename p ]} ∪ targets l.
Proof. reflexivity. Qed.

Lemma size_missing_le (T d d' : gset string) :
  d ⊆ d' -> (size (T ∖ d') <= size (T ∖ d))%nat.
Proof. intros H. apply subseteq_size. set_solver. Qed.

Lemma size_missing_lt (T d d' : gset string) (f : string) :
  f ∈ T -> f ∉ d -> f ∈ d' -> d ⊆ d' -> (S (size (T ∖ d')) <= size (T ∖ d))%nat.
Proof.
  intros HT Hd Hd' Hsub.
  assert (T ∖ d = {[ f ]} ∪ (T ∖ d ∖ {[ f ]})) as Heq.
  { apply set_eq. intros x. destruct (decide (x = f)) as [->|]; set_solver. }
  assert (({[ f ]} : gset string) ## T ∖ d ∖ {[ f ]}) as Hdisj by set_solver.
  rewrite Heq, (size_union _ _ Hdisj), size_singleton.
  apply le_n_S, subseteq_size. set_solver.
Qed.

Lemma download_loop_missing (web : nat -> Bulk.download_view) (T : gset string)
  (policies : list policy) :
  forall (i : nat) (s : Bulk.session),
    targets policies ⊆ T ->
    (Bulk.downloaded_count (Bulk.counters (Bulk.download_loop web i policies s))
     + size (T ∖ Bulk.disk (Bulk.download_loop web i policies s))
     <= Bulk.downloaded_count (Bulk.counters s) + size (T ∖ Bulk.disk s))%nat.
Proof.
  induction policies as [|p rest IH]; intros i s HT; [simpl; lia|].
  rewrite targets_cons in HT. rewrite download_loop_cons.
  download_step web i p s s1 HC.
  assert ((Bulk.downloaded_count (Bulk.counters s1) + size (T ∖ Bulk.disk s1)
           <= Bulk.downloaded_count (Bulk.counters s) + size (T ∖ Bulk.disk s))%nat) as Hstep.
  { destruct HC as [(Hin & Hb & Hs) | (Hout & Hv & Hsub & Hsup & [Hok | Hfail])].
    - rewrite Hs. lia.
    - destruct Hok as (_ & Hfile & Hd & _). rewrite Hd.
      pose proof (size_missing_lt T (Bulk.disk s) (Bulk.disk s1) (Bulk.pdf_filename p))
        as Hlt.
      assert (Bulk.pdf_filename p ∈ T) as HpT by set_solver.
      specialize (Hlt HpT Hout Hfile Hsub). lia.
    - destruct Hfail as (_ & Hd & _). rewrite Hd.
      pose proof (size_missing_le T _ _ Hsub). lia. }
  destruct (Bulk.pause (web i)); [|exact Hstep].
  assert (targets rest ⊆ T) as HT' by set_solver.
  pose proof (IH (S i) s1 HT'). lia.
Qed.

(** X18: a bulk download counts at most one download for each file name,
    and none for a file that was there before: the downloads counted are
    at most the distinct file names of the list that are missing from the
    output directory.  Two policies have the same file name exactly when
    they have the same [lcd_id], so of several policies with one
    identifier at most one is counted as downloaded. *)
Theorem one_download_per_identifier (web : nat -> Bulk.download_view) (i : nat)
  (policies : list policy) (s : Bulk.session) :
  let s' := Bulk.download_loop web i policies s in
  (Bulk.downloaded_count (Bulk.counters s') - Bulk.downloaded_count (Bulk.counters s)
   <= size (targets policies ∖ Bulk.disk s))%nat /\
  (size (targets policies ∖ Bulk.disk s) <= List.length policies)%nat /\
  (forall p q, Bulk.pdf_filename p = Bulk.pdf_filename q <-> lcd_id p = lcd_id q).
Proof.
  intros s'. subst s'. split; [|split].
  - pose proof (download_loop_missing web (targets policies) policies i s
                  (reflexivity _)). lia.
  - etransitivity; [apply subseteq_size, subseteq_difference_l; reflexivity|].
    clear. induction policies as [|p rest IH]; [reflexivity|].
    rewrite targets_cons, size_union_alt, size_singleton.
    assert (size (targets rest ∖ {[ Bulk.pdf_filename p ]}) <= size (targets rest))%nat
      as Hle by (apply subseteq_size; set_solver).
    cbn [List.length]. lia.
  - exact pdf_filename_inj.
Qed.

(** Files that are there are not downloaded again. *)

Lemma download_loop_all_present (web : nat -> Bulk.download_view) (policies : list policy)
  (s : Bulk.session) :
  (forall p, p ∈ policies -> Bulk.pdf_filename p ∈ Bulk.disk s) ->
  forall i, Bulk.download_loop web i policies s = s.
Proof.
  induction policies as [|p rest IH]; intros Hall i; [reflexivity|].
  rewrite download_loop_cons. unfold Bulk.download_policy_pdf.
  destruct (decide (Bulk.pdf_filename p ∈ Bulk.disk s)) as [_|Hout].
  - simpl. destruct (Bulk.pause (web i)); [|reflexivity].
    apply IH. intros q Hq. apply Hall, list_elem_of_further, Hq.
  - exfalso. apply Hout, Hall, list_elem_of_here.
Qed.

Lemma download_loop_clean (web : nat -> Bulk.download_view) (policies : list policy) :
  forall (i : nat) (s : Bulk.session),
    (forall k, Bulk.pause (web k) = Returns tt) ->
    Bulk.failed_count (Bulk.counters (Bulk.download_loop web i policies s))
    = Bulk.failed_count (Bulk.counters s) ->
    forall p, p ∈ policies ->
              Bulk.pdf_filename p ∈ Bulk.disk (Bulk.download_loop web i policies s).
Proof.
  induction policies as [|p rest IH]; intros i s Hpause Hclean q Hq; [inversion Hq|].
  rewrite download_loop_cons in *. rewrite Hpause in *.
  download_step web i p s s1 HC.
  destruct (download_loop_counts web rest (S i) s1) as (_ & _ & _ & _ & Hdisk & _ & Hmono).
  cbv zeta in Hdisk, Hmono.
  assert (Bulk.failed_count (Bulk.counters s1) = Bulk.failed_count (Bulk.counters s)
          /\ Bulk.pdf_filename p ∈ Bulk.disk s1) as [Hf1 Hp1].
  { destruct HC as [(Hin & Hb & Hs) | (Hout & Hv & Hsub & Hsup & [Hok | Hfail])].
    - rewrite Hs. split; [reflexivity | exact Hin].
    - destruct Hok as (_ & Hfile & _ & Hf & _). split; assumption.
    - destruct Hfail as (_ & _ & Hf & _). lia. }
  apply elem_of_cons in Hq as [->|Hq].
  - apply Hdisk, Hp1.
  - apply IH; [exact Hpause | lia | exact Hq].
Qed.



(** X20: a bulk download that is not interrupted and counts no failure
    leaves the file of every policy of the list in the output directory,
    so a second download of the same list, whatever the site then
    answers, visits no page and changes nothing. *)
Theorem second_download_changes_nothing (web web' : nat -> Bulk.download_view)
  (policies : list policy) (s : Bulk.session) :
  (forall k, Bulk.pause (web k) = Returns tt) ->
  Bulk.failed_count (Bulk.counters (Bulk.download_loop web 0 policies s))
  = Bulk.failed_count (Bulk.counters s) ->
  (forall p, p ∈ policies ->
             Bulk.pdf_filename p ∈ Bulk.disk (Bulk.download_loop web 0 policies s)) /\
  (forall i, Bulk.download_loop web' i policies (Bulk.download_loop web 0 policies s)
             = Bulk.download_loop web 0 policies s).
Proof.
  intros Hpause Hclean.
  pose proof (download_loop_clean web policies 0 s Hpause Hclean) as Hall.
  split; [exact Hall | apply download_loop_all_present, Hall].
Qed.

Lemma second_download_changes_nothing_witness :
  (forall p, p ∈ [seeded_33822; probed_35000] ->
             Bulk.pdf_filename p
             ∈ Bulk.disk (Bulk.download_loop (fun _ => smooth) 0
                            [seeded_33822; probed_35000] (Bulk.new_session ∅))) /\
  (forall i, Bulk.download_loop (fun _ => smooth) i [seeded_33822; probed_35000]
               (Bulk.download_loop (fun _ => smooth) 0 [seeded_33822; probed_35000]
                  (Bulk.new_session ∅))
             = Bulk.download_loop (fun _ => smooth) 0 [seeded_33822; probed_35000]
                 (Bulk.new_session ∅)).
Proof.
  apply (second_download_changes_nothing (fun _ => smooth) (fun _ => smooth)
           [seeded_33822; probed_35000] (Bulk.new_session ∅)).
  - intros k. reflexivity.
  - vm_compute. reflexivity.
Defined.

(** Policies with distinct identifiers are all tried. *)

Lemma download_loop_distinct (web : nat -> Bulk.download_view) (policies : list policy) :
  forall (i : nat) (s : Bulk.session),
    (forall k, Bulk.pause (web k) = Returns tt) ->
    NoDup (map lcd_id policies) ->
    (forall p, p ∈ policies -> Bulk.pdf_filename p ∉ Bulk.disk s) ->
    Bulk.visited (Bulk.download_loop web i policies s)
    = (Bulk.visited s ++ map url policies)%list.
Proof.
  induction policies as [|p rest IH]; intros i s Hpause Hnd Hout.
  - simpl. rewrite app_nil_r. reflexivity.
  - rewrite download_loop_cons, Hpause.
    download_step web i p s s1 HC.
    cbn [map] in Hnd. apply NoDup_cons in Hnd as [Hp Hnd].
    destruct HC as [(Hin & _) | (_ & Hv & _ & Hsup & _)].
    + exfalso. exact (Hout p (list_elem_of_here _ _) Hin).
    + rewrite (IH (S i) s1 Hpause Hnd).
      * rewrite Hv, <- app_assoc. reflexivity.
      * intros q Hq Hin. apply Hsup in Hin.
        apply elem_of_union in Hin as [Hin|Hin].
        -- exact (Hout q (list_elem_of_further _ _ _ Hq) Hin).
        -- apply elem_of_singleton in Hin. apply pdf_filename_inj in Hin.
           apply Hp. rewrite <- Hin. apply list_elem_of_fmap.
           exists q. split; [reflexivity | exact Hq].
Qed.



Lemma slice_to_nil {A : Type} (n : Z) : Py.slice_to n ([] : list A) = [].
Proof. unfold Py.slice_to. destruct (0 <=? n); apply take_nil. Qed.

(** X22: with nothing to download the bulk download does nothing: when
    All_urls.json is missing or is not JSON, when it holds no policy, and
    in sample mode with a sample size of 0, the downloader stays as it
    was, whatever the site would answer. *)
Theorem nothing_to_download (sample_only : bool) (sample_size : Z)
  (web : nat -> Bulk.download_view) (s : Bulk.session) :
  Bulk.download_all_policies sample_only sample_size Bulk.Missing web s = s /\
  Bulk.download_all_policies sample_only sample_size Bulk.Malformed web s = s /\
  Bulk.download_all_policies sample_only sample_size (Bulk.Loaded []) web s = s /\
  (forall all, Bulk.download_all_policies true 0 (Bulk.Loaded all) web s = s).
Proof.
  refine (conj _ (conj _ (conj _ _))).
  - reflexivity.
  - reflexivity.
  - rewrite download_all_policies_loop.
    assert (Bulk.load_policy_urls sample_only sample_size (Bulk.Loaded []) = []) as ->;
      [|reflexivity].
    destruct sample_only; [|reflexivity]. cbn [Bulk.load_policy_urls].
    unfold Bulk.sample. cbn [List.filter]. rewrite !slice_to_nil.
    destruct (_ <? _); reflexivity.
  - intros all. rewrite download_all_policies_loop.
    assert (Bulk.load_policy_urls true 0 (Bulk.Loaded all) = []) as ->; [|reflexivity].
    cbn [Bulk.load_policy_urls]. rewrite sample_formula by lia. reflexivity.
Qed.

(** ** The merge after a discovery *)




(** ** The two link extractors *)

(** X24: [extract_lcd_links] is the stricter of the two link extractors:
    a link it takes a record from gives [extract_all_lcd_results] the
    same record, and the two differ on a link only when its address
    holds no document code. *)
Theorem link_extractors_agree (s : finder) (l : Finder.link) :
  (Finder.add_link s l = s \/ Finder.add_link s l = Finder.add_result s l) /\
  (forall h, Finder.href l = Some h -> is_Some (Py.re_search "DocID=" "L" h) ->
             Finder.add_link s l = Finder.add_result s l).
Proof.
  unfold Finder.add_link, Finder.add_result.
  destruct (Finder.href l) as [h|]; [|split; [left; reflexivity | intros h [=]]].
  destruct (Finder.is_lcd_href h);
    [|split; [left; reflexivity | reflexivity]].
  destruct (Py.re_search "LCDId=" "" h) as [lcd|];
    [|split; [left; reflexivity | reflexivity]].
  destruct (Py.re_search "DocID=" "L" h) as [doc|] eqn:E.
  - split; [right; reflexivity | reflexivity].
  - split; [left; reflexivity|]. intros h' [= <-] [d Hd]. congruence.
Qed.

(** ** Reading a page again *)

Section Rereading.

Variable add : finder -> Finder.link -> finder.

Hypothesis add_grows : forall s l, processed_ids s ⊆ processed_ids (add s l).

Hypothesis add_absorbed : forall s s' l,
  processed_ids (add s l) ⊆ processed_ids s' -> add s' l = s'.

Lemma harvest_grows (links : list (outcome Finder.link)) :
  forall s, processed_ids s ⊆ processed_ids (Finder.harvest add links s).
Proof.
  induction links as [|[l|] links IH]; intros s; simpl; [reflexivity| |reflexivity].
  etransitivity; [apply (add_grows s l) | apply IH].
Qed.

Lemma harvest_absorbed (links : list (outcome Finder.link)) :
  forall s s',
    processed_ids (Finder.harvest add links s) ⊆ processed_ids s' ->
    Finder.harvest add links s' = s'.
Proof.
  induction links as [|[l|] links IH]; intros s s' Hsub; simpl in *;
    [reflexivity| |reflexivity].
  rewrite (add_absorbed s s' l).
  - exact (IH (add s l) s' Hsub).
  - etransitivity; [apply harvest_grows | exact Hsub].
Qed.

Lemma harvest_selectors_grows (pg : Finder.listing) (selectors : list string) :
  forall s, processed_ids s ⊆ processed_ids (Finder.harvest_selectors add pg selectors s).
Proof.
  unfold Finder.harvest_selectors.
  induction selectors as [|sel selectors IH]; intros s; simpl; [reflexivity|].
  etransitivity; [|apply IH]. unfold Finder.harvest_query.
  destruct (Finder.query_selector_all pg sel); [apply harvest_grows | reflexivity].
Qed.

Lemma harvest_selectors_absorbed (pg : Finder.listing) (selectors : list string) :
  forall s s',
    processed_ids (Finder.harvest_selectors add pg selectors s) ⊆ processed_ids s' ->
    Finder.harvest_selectors add pg selectors s' = s'.
Proof.
  unfold Finder.harvest_selectors.
  induction selectors as [|sel selectors IH]; intros s s' Hsub; simpl in *;
    [reflexivity|].
  assert (Finder.harvest_query add (Finder.query_selector_all pg sel) s' = s') as ->.
  { unfold Finder.harvest_query in *.
    destruct (Finder.query_selector_all pg sel) as [links|]; [|reflexivity].
    apply (harvest_absorbed links s).
    etransitivity; [|exact Hsub].
    apply (harvest_selectors_grows pg selectors). }
  exact (IH _ s' Hsub).
Qed.

End Rereading.

Lemma add_link_grows (s : finder) (l : Finder.link) :
  processed_ids s ⊆ processed_ids (Finder.add_link s l).
Proof.
  unfold Finder.add_link.
  destruct (Finder.href l); [|reflexivity].
  destruct (Finder.is_lcd_href _); [|reflexivity].
  destruct (Py.re_search "LCDId=" "" _); [|reflexivity].
  destruct (Py.re_search "DocID=" "L" _); [|reflexivity].
  destruct (decide _); [reflexivity | apply union_subseteq_l].
Qed.

Lemma add_result_grows (s : finder) (l : Finder.link) :
  processed_ids s ⊆ processed_ids (Finder.add_result s l).
Proof.
  unfold Finder.add_result.
  destruct (Finder.href l); [|reflexivity].
  destruct (Finder.is_lcd_href _); [|reflexivity].
  destruct (Py.re_search "LCDId=" "" _); [|reflexivity].
  destruct (decide _); [reflexivity | apply union_subseteq_l].
Qed.

Lemma add_link_absorbed (s s' : finder) (l : Finder.link) :
  processed_ids (Finder.add_link s l) ⊆ processed_ids s' -> Finder.add_link s' l = s'.
Proof.
  unfold Finder.add_link.
  destruct (Finder.href l); [|reflexivity].
  destruct (Finder.is_lcd_href _); [|reflexivity].
  destruct (Py.re_search "LCDId=" "" _) as [lcd|]; [|reflexivity].
  destruct (Py.re_search "DocID=" "L" _); [|reflexivity].
  intros Hsub. destruct (decide (lcd ∈ processed_ids s')) as [_|Hout]; [reflexivity|].
  exfalso. apply Hout, Hsub.
  destruct (decide (lcd ∈ processed_ids s)); [assumption|].
  simpl. apply elem_of_union_r, elem_of_singleton. reflexivity.
Qed.

Lemma add_result_absorbed (s s' : finder) (l : Finder.link) :
  processed_ids (Finder.add_result s l) ⊆ processed_ids s' -> Finder.add_result s' l = s'.
Proof.
  unfold Finder.add_result.
  destruct (Finder.href l); [|reflexivity].
  destruct (Finder.is_lcd_href _); [|reflexivity].
  destruct (Py.re_search "LCDId=" "" _) as [lcd|]; [|reflexivity].
  intros Hsub. destruct (decide (lcd ∈ processed_ids s')) as [_|Hout]; [reflexivity|].
  exfalso. apply Hout, Hsub.
  destruct (decide (lcd ∈ processed_ids s)); [assumption|].
  simpl. apply elem_of_union_r, elem_of_singleton. reflexivity.
Qed.

(** X25: reading the same page again adds nothing: after the links of a
    page were extracted, extracting them again, from a finder that has
    processed at least the same identifiers, leaves the finder as it is.
    This holds for [extract_lcd_links] and for the extraction of one page
    of results, so a link matched by several selectors, or listed twice,
    gives one record. *)
Theorem rereading_a_page_adds_nothing (pg : Finder.listing) (s : finder) :
  Finder.extract_lcd_links pg (Finder.extract_lcd_links pg s)
  = Finder.extract_lcd_links pg s /\
  Finder.harvest_selectors Finder.add_result pg Finder.result_selectors
    (Finder.harvest_selectors Finder.add_result pg Finder.result_selectors s)
  = Finder.harvest_selectors Finder.add_result pg Finder.result_selectors s /\
  (forall s',
     processed_ids (Finder.extract_lcd_links pg s) ⊆ processed_ids s' ->
     Finder.extract_lcd_links pg s' = s').
Proof.
  assert (forall s',
            processed_ids (Finder.extract_lcd_links pg s) ⊆ processed_ids s' ->
            Finder.extract_lcd_links pg s' = s') as Habs.
  { intros s'. unfold Finder.extract_lcd_links.
    destruct (Finder.settle pg); [|reflexivity].
    apply (harvest_selectors_absorbed _ add_link_grows add_link_absorbed). }
  refine (conj _ (conj _ Habs)).
  - apply Habs. reflexivity.
  - apply (harvest_selectors_absorbed _ add_result_grows add_result_absorbed
             pg Finder.result_selectors s).
    reflexivity.
Qed.

(** X26: an element whose reading raises ends the loop of its selector:
    the links before it are handled as usual, the links after it are not
    looked at, and the next selector goes on from there. *)
Theorem failed_link_ends_selector (add : finder -> Finder.link -> finder)
  (before after : list (outcome Finder.link)) (s : finder) :
  Finder.harvest add (before ++ Raises :: after)%list s = Finder.harvest add before s /\
  Finder.harvest_query add (Returns (before ++ Raises :: after)%list) s
  = Finder.harvest_query add (Returns before) s /\
  Finder.harvest_query add Raises s = s.
Proof.
  assert (forall s, Finder.harvest add (before ++ Raises :: after)%list s
                    = Finder.harvest add before s) as H.
  { induction before as [|[l|] before IH]; intros s0; simpl;
      [reflexivity | apply IH | reflexivity]. }
  split; [apply H | split; [apply H | reflexivity]].
Qed.

(** ** The manual list is downloaded whole *)

Lemma manual_list_distinct (clock : nat -> string) :
  NoDup (map lcd_id (map Manual.info
                       (Manual.policies (Manual.save_comprehensive_lcd_list clock)))).
Proof. apply (bool_decide_unpack _). vm_compute. exact I. Qed.

(** X27: the list written by the manual script has 69 policies with
    pairwise distinct identifiers.  So a bulk download of all of it into
    an empty directory that is not interrupted visits the address of
    every policy, in the order of the file, and counts each one as
    downloaded or failed. *)
Theorem manual_list_is_tried_whole (clock : nat -> string)
  (web : nat -> Bulk.download_view) :
  (forall k, Bulk.pause (web k) = Returns tt) ->
  let out := Manual.save_comprehensive_lcd_list clock in
  let s' := Bulk.download_all_policies false 10 (Manual.written_file out) web
              (Bulk.new_session ∅) in
  Manual.total_policies out = 69%nat /\
  NoDup (map lcd_id (map Manual.info (Manual.policies out))) /\
  Bulk.visited s' = map url (map Manual.info (Manual.policies out)) /\
  (Bulk.downloaded_count (Bulk.counters s') + Bulk.failed_count (Bulk.counters s'))%nat
  = Manual.total_policies out.
Proof.
  intros Hpause out s'. subst s'. rewrite download_all_policies_loop.
  unfold Manual.written_file. cbn [Bulk.load_policy_urls].
  set (policies := map Manual.info (Manual.policies out)).
  pose proof (manual_list_distinct clock) as Hnd. fold out policies in Hnd.
  assert (Manual.total_policies out = List.length policies) as Hlen.
  { subst policies. rewrite length_map. reflexivity. }
  assert (forall p, p ∈ policies -> Bulk.pdf_filename p ∉ Bulk.disk (Bulk.new_session ∅))
    as Hout by (intros p _; apply not_elem_of_empty).
  pose proof (download_loop_distinct web policies 0 (Bulk.new_session ∅)
                Hpause Hnd Hout) as Hv.
  destruct (download_loop_counts web policies 0 (Bulk.new_session ∅)) as (H1 & _).
  cbv zeta in H1. clearbody policies. simpl in Hv, H1.
  split; [reflexivity|]. split; [exact Hnd|]. split; [exact Hv|].
  rewrite Hv, length_map in H1. lia.
Qed.

Lemma manual_list_is_tried_whole_witness :
  Manual.total_policies (Manual.save_comprehensive_lcd_list noon) = 69%nat.
Proof.
  apply (manual_list_is_tried_whole noon (fun _ => smooth)).
  intros k. reflexivity.
Defined.
